(** * Marketplace engine (smart-contracts/programs/marketplace-engine)

    Shallow embedding of the Anchor program of the marketplace engine:
    - [src/lib.rs]: the [#[program]] module ([create_listing], [buy_ticket],
      [create_auction], [place_bid]) and the free function
      [configure_royalty], over the account types of [src/state/mod.rs];
    - [src/instructions/create_listing.rs] and [src/instructions/buy_ticket.rs]:
      the instruction handlers, over the account types of
      [src/state/listing.rs] and [src/state/royalty.rs];
    - [temp_auction_fix.rs]: the escrowing [place_bid] and [end_auction].

    Amounts are [u64] and basis points [u16], both as [Z] with their bounds
    written out; account keys ([Pubkey]) are [nat].  Lamport balances and
    token holdings form the world state; every lamport movement is also
    appended to a log so that the order of movements can be observed.
    An instruction is a function [State -> result State]: the runtime
    commits the final state on [Ok] and discards it on [Err]. *)

From Stdlib Require Import ZArith Lia List String Bool.
Import ListNotations.
Open Scope Z_scope.

(** ** Machine integers *)

Definition U64_MAX : Z := 2 ^ 64 - 1.
Definition U16_MAX : Z := 2 ^ 16 - 1.

Definition is_u64 (x : Z) : Prop := 0 <= x <= U64_MAX.
Definition is_u16 (x : Z) : Prop := 0 <= x <= U16_MAX.

(** [u64::checked_mul], [u64::checked_div], [u64::checked_sub]. *)
Definition checked_mul (x y : Z) : option Z :=
  if x * y <=? U64_MAX then Some (x * y) else None.

Definition checked_div (x y : Z) : option Z :=
  if y =? 0 then None else Some (x / y).

Definition checked_sub (x y : Z) : option Z :=
  if y <=? x then Some (x - y) else None.

(** Plain [+] on [u16]: the program's Cargo profile is not part of the
    repository, so both behaviours of an overflowing addition are kept:
    with overflow checks the addition panics ([None]), without them it
    wraps around modulo [2^16]. *)
Inductive OverflowMode := OverflowChecks | Wrapping.

Definition u16_add (m : OverflowMode) (x y : Z) : option Z :=
  if x + y <=? U16_MAX then Some (x + y)
  else match m with
       | OverflowChecks => None
       | Wrapping => Some ((x + y) mod 2 ^ 16)
       end.

(** ** Errors *)

(** [MarketplaceError] of [src/errors/mod.rs] declares the first four
    variants; the handlers under [src/instructions/] also name the last
    four.  No variant is called [InvalidSplit] or [BidTooLow]. *)
Inductive MarketplaceError :=
| PriceExceedsCap
| ListingNotActive
| InsufficientFunds
| ArithmeticOverflow
| ListingExpired
| OfferExpired
| OffersNotAllowed
| Unauthorized.

Definition marketplace_error_name (e : MarketplaceError) : string :=
  match e with
  | PriceExceedsCap => "PriceExceedsCap"
  | ListingNotActive => "ListingNotActive"
  | InsufficientFunds => "InsufficientFunds"
  | ArithmeticOverflow => "ArithmeticOverflow"
  | ListingExpired => "ListingExpired"
  | OfferExpired => "OfferExpired"
  | OffersNotAllowed => "OffersNotAllowed"
  | Unauthorized => "Unauthorized"
  end.

(** Errors an instruction can end with: a [MarketplaceError] raised by
    [require!] or [ok_or], an Anchor [constraint = ...] without a custom
    error, a failed system-program transfer, a failed token transfer, and
    an arithmetic panic. *)
Inductive ProgramError :=
| Custom (e : MarketplaceError)
| ConstraintRaw
| SystemInsufficientLamports
| TokenTransferFailed
| Panic.

Definition error_name (e : ProgramError) : string :=
  match e with
  | Custom e => marketplace_error_name e
  | ConstraintRaw => "ConstraintRaw"
  | SystemInsufficientLamports => "ResultWithNegativeLamports"
  | TokenTransferFailed => "TokenTransferFailed"
  | Panic => "Panic"
  end.

Inductive result (A : Type) :=
| Ok (a : A)
| Err (e : ProgramError).
Arguments Ok {A} a.
Arguments Err {A} e.

Definition bind {A B} (r : result A) (f : A -> result B) : result B :=
  match r with
  | Ok a => f a
  | Err e => Err e
  end.

Notation "'let*' x ':=' r 'in' f" := (bind r (fun x => f))
  (at level 200, x name, r at level 100, f at level 200).

(** [require!(cond, err)] *)
Definition require (b : bool) (e : MarketplaceError) : result unit :=
  if b then Ok tt else Err (Custom e).

(** [opt.ok_or(err)?] *)
Definition ok_or {A} (o : option A) (e : MarketplaceError) : result A :=
  match o with
  | Some a => Ok a
  | None => Err (Custom e)
  end.

Definition opt_bind {A B} (o : option A) (f : A -> option B) : option B :=
  match o with
  | Some a => f a
  | None => None
  end.

(** ** Settlement split

    The same statements appear in [buy_ticket] of [src/lib.rs] (lines
    45-69), in the handler of [src/instructions/buy_ticket.rs] (lines
    89-113) and in [end_auction] of [temp_auction_fix.rs] (lines 72-96):
    [let share = total.checked_mul(bp as u64).ok_or(ArithmeticOverflow)?
                      .checked_div(10000).ok_or(ArithmeticOverflow)?;]
    three times, then the seller's remainder by three checked
    subtractions. *)

Definition royalty_share (total bp : Z) : result Z :=
  let* m := ok_or (checked_mul total bp) ArithmeticOverflow in
  ok_or (checked_div m 10000) ArithmeticOverflow.

Definition seller_remainder (total artist venue platform : Z) : result Z :=
  let* a := ok_or (checked_sub total artist) ArithmeticOverflow in
  let* b := ok_or (checked_sub a venue) ArithmeticOverflow in
  ok_or (checked_sub b platform) ArithmeticOverflow.

Record Settlement := mkSettlement {
  artist_royalty : Z;
  venue_royalty : Z;
  platform_fee : Z;
  seller_amount : Z
}.

Definition compute_split (total artist_bp venue_bp platform_bp : Z)
  : result Settlement :=
  let* artist := royalty_share total artist_bp in
  let* venue := royalty_share total venue_bp in
  let* platform := royalty_share total platform_bp in
  let* seller := seller_remainder total artist venue platform in
  Ok (mkSettlement artist venue platform seller).

(** ** World state *)

Definition Pubkey := nat.

(** One lamport movement: [from] loses [amount], [to] gains it. *)
Record Movement := mkMovement {
  mv_from : Pubkey;
  mv_to : Pubkey;
  mv_amount : Z
}.

(** [lamports k] is the lamport balance of account [k];
    [token_holder m] is the account holding the single unit of the ticket
    mint [m]; [log] lists every lamport movement, oldest first. *)
Record State := mkState {
  lamports : Pubkey -> Z;
  token_holder : Pubkey -> Pubkey;
  log : list Movement
}.

Definition upd {B} (f : Pubkey -> B) (k : Pubkey) (v : B) : Pubkey -> B :=
  fun k' => if Nat.eqb k' k then v else f k'.

Definition set_lamports (s : State) (k : Pubkey) (v : Z) : State :=
  mkState (upd (lamports s) k v) (token_holder s) (log s).

Definition record_movement (s : State) (m : Movement) : State :=
  mkState (lamports s) (token_holder s) (log s ++ [m]).

(** [anchor_lang::system_program::transfer] from [from] to [to]: the
    system program refuses to leave [from] with a negative balance. *)
Definition system_transfer (from to : Pubkey) (amount : Z) (s : State)
  : result State :=
  if lamports s from <? amount then Err SystemInsufficientLamports
  else
    let s1 := set_lamports s from (lamports s from - amount) in
    let s2 := set_lamports s1 to (lamports s1 to + amount) in
    Ok (record_movement s2 (mkMovement from to amount)).

(** [**to.lamports.borrow_mut() += amount;
     **from.lamports.borrow_mut() -= amount;]
    as written in [temp_auction_fix.rs]: two [u64] updates, in this
    order, each panicking when it leaves the [u64] range. *)
Definition direct_lamport_move (to from : Pubkey) (amount : Z) (s : State)
  : result State :=
  if U64_MAX <? lamports s to + amount then Err Panic
  else
    let s1 := set_lamports s to (lamports s to + amount) in
    if lamports s1 from <? amount then Err Panic
    else
      let s2 := set_lamports s1 from (lamports s1 from - amount) in
      Ok (record_movement s2 (mkMovement from to amount)).

(** [token::transfer(cpi_ctx, 1)] of the unit of [mint] from the account
    [from] to the account [to]. *)
Definition token_transfer (mint from to : Pubkey) (s : State) : result State :=
  if Nat.eqb (token_holder s mint) from
  then Ok (mkState (lamports s) (upd (token_holder s) mint to) (log s))
  else Err TokenTransferFailed.

(** The runtime commits an instruction's writes only when it returns
    [Ok]; on [Err] every account keeps its previous contents. *)
Definition commit {A} (acct : A) (s : State) (r : result (A * State)) : A * State :=
  match r with
  | Ok p => p
  | Err _ => (acct, s)
  end.

Definition sum_amounts (ms : list Movement) : Z :=
  fold_right (fun m acc => mv_amount m + acc) 0 ms.

(** ** Account types of [src/state/mod.rs] (used by [src/lib.rs] and by
    [temp_auction_fix.rs]) *)
Module StateMod.

Inductive ListingStatus := Active | Sold | Cancelled.

Definition ListingStatus_eqb (a b : ListingStatus) : bool :=
  match a, b with
  | Active, Active | Sold, Sold | Cancelled, Cancelled => true
  | _, _ => false
  end.

Record Listing := mkListing {
  ticket_mint : Pubkey;
  seller : Pubkey;
  price : Z;
  original_price : Z;
  price_cap : Z;
  status : ListingStatus
}.

Record RoyaltyConfig := mkRoyaltyConfig {
  event_mint : Pubkey;
  artist_wallet : Pubkey;
  venue_wallet : Pubkey;
  platform_wallet : Pubkey;
  artist_percentage : Z;
  venue_percentage : Z;
  platform_percentage : Z;
  price_cap_multiplier : Z
}.

Inductive AuctionType := English | Dutch.

Definition AuctionType_eqb (a b : AuctionType) : bool :=
  match a, b with
  | English, English | Dutch, Dutch => true
  | _, _ => false
  end.

Inductive AuctionStatus := AActive | Ended | ACancelled.

Definition AuctionStatus_eqb (a b : AuctionStatus) : bool :=
  match a, b with
  | AActive, AActive | Ended, Ended | ACancelled, ACancelled => true
  | _, _ => false
  end.

Record Auction := mkAuction {
  a_ticket_mint : Pubkey;
  a_seller : Pubkey;
  starting_bid : Z;
  current_bid : Z;
  highest_bidder : option Pubkey;
  end_time : Z;
  auction_type : AuctionType;
  a_status : AuctionStatus
}.

End StateMod.

(** ** [src/lib.rs] *)
Module Lib.
Import StateMod.

(** [create_listing] (lines 15-33): the original price is the constant
    [5_000_000_000] and the cap is twice it; the price is stored without
    any comparison with the cap and no royalty configuration is read. *)
Definition create_listing (ticket_mint_key seller_key : Pubkey) (price : Z)
    (_expires_at : option Z) (_allow_offers : bool) : result Listing :=
  let original_price := 5000000000 in
  Ok (mkListing ticket_mint_key seller_key price original_price
        (original_price * 2) Active).

(** Accounts of [BuyTicket] (lines 191-224) that the handler reads. *)
Record BuyTicketAccounts := mkBuyTicketAccounts {
  bt_buyer : Pubkey;
  bt_seller : Pubkey;
  bt_artist_wallet : Pubkey;
  bt_venue_wallet : Pubkey
}.

(** The [constraint = ...] checks of [BuyTicket], in field order. *)
Definition check_buy_accounts (ctx : BuyTicketAccounts) (l : Listing)
    (cfg : RoyaltyConfig) : result unit :=
  if negb (Nat.eqb (bt_seller ctx) (seller l)) then Err ConstraintRaw
  else if negb (Nat.eqb (bt_artist_wallet ctx) (artist_wallet cfg)) then Err ConstraintRaw
  else if negb (Nat.eqb (bt_venue_wallet ctx) (venue_wallet cfg)) then Err ConstraintRaw
  else Ok tt.

(** [buy_ticket] (lines 35-121): account checks, then the handler body. *)
Definition buy_ticket (ctx : BuyTicketAccounts) (l : Listing)
    (cfg : RoyaltyConfig) (s : State) : result (Listing * State) :=
  let* _ := check_buy_accounts ctx l cfg in
  let* _ := require (ListingStatus_eqb (status l) Active) ListingNotActive in
  let total_price := price l in
  let* sp := compute_split total_price (artist_percentage cfg)
               (venue_percentage cfg) (platform_percentage cfg) in
  let* s1 := system_transfer (bt_buyer ctx) (bt_seller ctx) (seller_amount sp) s in
  let* s2 := if 0 <? artist_royalty sp
             then system_transfer (bt_buyer ctx) (bt_artist_wallet ctx) (artist_royalty sp) s1
             else Ok s1 in
  let* s3 := if 0 <? venue_royalty sp
             then system_transfer (bt_buyer ctx) (bt_venue_wallet ctx) (venue_royalty sp) s2
             else Ok s2 in
  Ok (mkListing (ticket_mint l) (seller l) (price l) (original_price l)
        (price_cap l) Sold, s3).


(** [place_bid] (lines 156-169), "simplified version that compiles": it
    only rewrites the auction record; the world state is returned as it
    came in. *)
Definition place_bid (now : Z) (bidder : Pubkey) (bid_amount : Z)
    (a : Auction) (s : State) : result (Auction * State) :=
  let* _ := require (AuctionStatus_eqb (a_status a) AActive) ListingNotActive in
  let* _ := require (now <? end_time a) ListingNotActive in
  let* _ := require (current_bid a <? bid_amount) InsufficientFunds in
  Ok (mkAuction (a_ticket_mint a) (a_seller a) (starting_bid a) bid_amount
        (Some bidder) (end_time a) (auction_type a) (a_status a), s).

(** [configure_royalty] (lines 261-290).  [artist + venue + platform] is
    Rust's left-associated [u16] addition. *)
Definition configure_royalty (m : OverflowMode)
    (event_mint_key artist_key venue_key platform_key : Pubkey)
    (artist_percentage_v venue_percentage_v platform_percentage_v
     price_cap_multiplier_v : Z) : result RoyaltyConfig :=
  match opt_bind (u16_add m artist_percentage_v venue_percentage_v)
          (fun x => u16_add m x platform_percentage_v) with
  | None => Err Panic
  | Some total_percentage =>
      let* _ := require (total_percentage <=? 10000) ArithmeticOverflow in
      Ok (mkRoyaltyConfig event_mint_key artist_key venue_key platform_key
            artist_percentage_v venue_percentage_v platform_percentage_v
            price_cap_multiplier_v)
  end.

End Lib.

(** ** [temp_auction_fix.rs]

    The [PlaceBid] and [EndAuction] account structs these functions use
    are not in the repository; the accounts are taken as given. *)
Module AuctionFix.
Import StateMod.

Record PlaceBidAccounts := mkPlaceBidAccounts {
  pb_auction : Pubkey;
  pb_bidder : Pubkey;
  pb_previous_bidder : Pubkey
}.

(** [place_bid] (lines 2-52). *)
Definition place_bid (now : Z) (ctx : PlaceBidAccounts) (bid_amount : Z)
    (a : Auction) (s : State) : result (Auction * State) :=
  let* _ := require (AuctionStatus_eqb (a_status a) AActive) ListingNotActive in
  let* _ := require (now <? end_time a) ListingNotActive in
  let* _ := require (AuctionType_eqb (auction_type a) English) ListingNotActive in
  let* _ := require (current_bid a <? bid_amount) InsufficientFunds in
  let previous_bid := current_bid a in
  let previous_bidder_key := highest_bidder a in
  let* s1 := match previous_bidder_key with
             | Some prev_bidder =>
                 if negb (Nat.eqb prev_bidder (pb_bidder ctx)) && (0 <? previous_bid)
                 then direct_lamport_move (pb_previous_bidder ctx) (pb_auction ctx)
                        previous_bid s
                 else Ok s
             | None => Ok s
             end in
  let* s2 := system_transfer (pb_bidder ctx) (pb_auction ctx) bid_amount s1 in
  Ok (mkAuction (a_ticket_mint a) (a_seller a) (starting_bid a) bid_amount
        (Some (pb_bidder ctx)) (end_time a) (auction_type a) (a_status a), s2).

Record EndAuctionAccounts := mkEndAuctionAccounts {
  ea_auction : Pubkey;
  ea_seller : Pubkey;
  ea_artist_wallet : Pubkey;
  ea_venue_wallet : Pubkey
}.

Definition with_status (a : Auction) (st : AuctionStatus) : Auction :=
  mkAuction (a_ticket_mint a) (a_seller a) (starting_bid a) (current_bid a)
    (highest_bidder a) (end_time a) (auction_type a) st.

(** [end_auction] (lines 55-133). *)
Definition end_auction (now : Z) (ctx : EndAuctionAccounts)
    (cfg : RoyaltyConfig) (a : Auction) (s : State) : result (Auction * State) :=
  let* _ := require (AuctionStatus_eqb (a_status a) AActive) ListingNotActive in
  let* _ := require (end_time a <=? now) ListingNotActive in
  let winner := highest_bidder a in
  let final_price := current_bid a in
  match winner with
  | Some _ =>
      let* sp := compute_split final_price (artist_percentage cfg)
                   (venue_percentage cfg) (platform_percentage cfg) in
      let* s1 := direct_lamport_move (ea_seller ctx) (ea_auction ctx)
                   (seller_amount sp) s in
      let* s2 := if 0 <? artist_royalty sp
                 then direct_lamport_move (ea_artist_wallet ctx) (ea_auction ctx)
                        (artist_royalty sp) s1
                 else Ok s1 in
      let* s3 := if 0 <? venue_royalty sp
                 then direct_lamport_move (ea_venue_wallet ctx) (ea_auction ctx)
                        (venue_royalty sp) s2
                 else Ok s2 in
      Ok (with_status a Ended, s3)
  | None => Ok (with_status a ACancelled, s)
  end.

End AuctionFix.

(** ** [src/instructions/] over [src/state/listing.rs] and
    [src/state/royalty.rs] *)
Module Ix.

Inductive ListingStatus := Active | Sold | Cancelled | Expired.

Definition ListingStatus_eqb (a b : ListingStatus) : bool :=
  match a, b with
  | Active, Active | Sold, Sold | Cancelled, Cancelled | Expired, Expired => true
  | _, _ => false
  end.

Record Listing := mkListing {
  ticket_mint : Pubkey;
  seller : Pubkey;
  price : Z;
  expires_at : option Z;
  allow_offers : bool;
  created_at : Z;
  status : ListingStatus;
  original_price : Z;
  price_cap : Z
}.

Record RoyaltyConfig := mkRoyaltyConfig {
  event_mint : Pubkey;
  artist_wallet : Pubkey;
  venue_wallet : Pubkey;
  platform_wallet : Pubkey;
  artist_percentage : Z;
  venue_percentage : Z;
  platform_percentage : Z;
  price_cap_multiplier : Z;
  authority : Pubkey;
  rc_created_at : Z
}.

Record CreateListingAccounts := mkCreateListingAccounts {
  cl_seller : Pubkey;
  cl_ticket_mint : Pubkey;
  cl_seller_token_account : Pubkey;
  cl_escrow_token_account : Pubkey
}.

(** [create_listing.rs], [handler] (lines 56-107) after the check of
    [seller_token_account.amount == 1] (line 29): the seller's token
    account must hold the unit. *)
Definition create_listing (now : Z) (ctx : CreateListingAccounts)
    (cfg : RoyaltyConfig) (price_v : Z) (expires_at_v : option Z)
    (allow_offers_v : bool) (s : State) : result (Listing * State) :=
  if negb (Nat.eqb (token_holder s (cl_ticket_mint ctx)) (cl_seller_token_account ctx))
  then Err ConstraintRaw
  else
  let original_price_v := 5000000000 in
  let* m := ok_or (checked_mul original_price_v (price_cap_multiplier cfg))
              ArithmeticOverflow in
  let* price_cap_v := ok_or (checked_div m 10000) ArithmeticOverflow in
  let* _ := require (price_v <=? price_cap_v) PriceExceedsCap in
  let* _ := match expires_at_v with
            | Some expires => require (now <? expires) ListingExpired
            | None => Ok tt
            end in
  let* s1 := token_transfer (cl_ticket_mint ctx) (cl_seller_token_account ctx)
               (cl_escrow_token_account ctx) s in
  Ok (mkListing (cl_ticket_mint ctx) (cl_seller ctx) price_v expires_at_v
        allow_offers_v now Active original_price_v price_cap_v, s1).

Record BuyTicketAccounts := mkBuyTicketAccounts {
  bt_buyer : Pubkey;
  bt_seller : Pubkey;
  bt_buyer_token_account : Pubkey;
  bt_escrow_token_account : Pubkey;
  bt_artist_wallet : Pubkey;
  bt_venue_wallet : Pubkey;
  bt_platform_wallet : Pubkey
}.

(** The checks of [BuyTicket] (lines 7-74), in field order: the listing's
    status (with [ListingNotActive]), then the plain constraints. *)
Definition check_buy_accounts (ctx : BuyTicketAccounts) (l : Listing)
    (cfg : RoyaltyConfig) (s : State) : result unit :=
  if negb (ListingStatus_eqb (status l) Active) then Err (Custom ListingNotActive)
  else if negb (Nat.eqb (bt_seller ctx) (seller l)) then Err ConstraintRaw
  else if negb (Nat.eqb (token_holder s (ticket_mint l)) (bt_escrow_token_account ctx))
  then Err ConstraintRaw
  else if negb (Nat.eqb (bt_artist_wallet ctx) (artist_wallet cfg)) then Err ConstraintRaw
  else if negb (Nat.eqb (bt_venue_wallet ctx) (venue_wallet cfg)) then Err ConstraintRaw
  else if negb (Nat.eqb (bt_platform_wallet ctx) (platform_wallet cfg)) then Err ConstraintRaw
  else Ok tt.

Definition with_status (l : Listing) (st : ListingStatus) : Listing :=
  mkListing (ticket_mint l) (seller l) (price l) (expires_at l) (allow_offers l)
    (created_at l) st (original_price l) (price_cap l).

(** [buy_ticket.rs]: account checks, then [handler] (lines 76-198). *)
Definition buy_ticket (now : Z) (ctx : BuyTicketAccounts) (l : Listing)
    (cfg : RoyaltyConfig) (s : State) : result (Listing * State) :=
  let* _ := check_buy_accounts ctx l cfg s in
  let* _ := match expires_at l with
            | Some expires => require (now <? expires) ListingExpired
            | None => Ok tt
            end in
  let total_price := price l in
  let* sp := compute_split total_price (artist_percentage cfg)
               (venue_percentage cfg) (platform_percentage cfg) in
  let* s1 := system_transfer (bt_buyer ctx) (bt_seller ctx) (seller_amount sp) s in
  let* s2 := if 0 <? artist_royalty sp
             then system_transfer (bt_buyer ctx) (bt_artist_wallet ctx) (artist_royalty sp) s1
             else Ok s1 in
  let* s3 := if 0 <? venue_royalty sp
             then system_transfer (bt_buyer ctx) (bt_venue_wallet ctx) (venue_royalty sp) s2
             else Ok s2 in
  let* s4 := if 0 <? platform_fee sp
             then system_transfer (bt_buyer ctx) (bt_platform_wallet ctx) (platform_fee sp) s3
             else Ok s3 in
  let* s5 := token_transfer (ticket_mint l) (bt_escrow_token_account ctx)
               (bt_buyer_token_account ctx) s4 in
  Ok (with_status l Sold, s5).

Record CancelListingAccounts := mkCancelListingAccounts {
  cx_seller : Pubkey;
  cx_seller_token_account : Pubkey;
  cx_escrow_token_account : Pubkey
}.

(** [cancel_listing.rs]: the checks of [CancelListing] (lines 7-39), in
    field order, then [handler] (lines 41-68).  The mint and owner
    constraints of [seller_token_account] concern which account is passed
    and are taken as met. *)
Definition cancel_listing (ctx : CancelListingAccounts) (l : Listing) (s : State)
  : result (Listing * State) :=
  if negb (Nat.eqb (seller l) (cx_seller ctx)) then Err (Custom Unauthorized)
  else if negb (ListingStatus_eqb (status l) Active) then Err (Custom ListingNotActive)
  else if negb (Nat.eqb (token_holder s (ticket_mint l)) (cx_escrow_token_account ctx))
  then Err ConstraintRaw
  else
  let* s1 := token_transfer (ticket_mint l) (cx_escrow_token_account ctx)
               (cx_seller_token_account ctx) s in
  Ok (with_status l Cancelled, s1).

Definition set_price (l : Listing) (p : Z) : Listing :=
  mkListing (ticket_mint l) (seller l) p (expires_at l) (allow_offers l)
    (created_at l) (status l) (original_price l) (price_cap l).

Definition set_expires_at (l : Listing) (e : option Z) : Listing :=
  mkListing (ticket_mint l) (seller l) (price l) e (allow_offers l)
    (created_at l) (status l) (original_price l) (price_cap l).

Definition set_allow_offers (l : Listing) (b : bool) : Listing :=
  mkListing (ticket_mint l) (seller l) (price l) (expires_at l) b
    (created_at l) (status l) (original_price l) (price_cap l).

(** [update_listing.rs]: the checks of [UpdateListing] (lines 6-18), then
    [handler] (lines 20-53).  The writes to the listing are in place; an
    error aborts the transaction and discards them. *)
Definition update_listing (now : Z) (signer : Pubkey) (l : Listing)
    (new_price : option Z) (expires_at_v : option Z) (allow_offers_v : option bool)
  : result Listing :=
  if negb (Nat.eqb (seller l) signer) then Err (Custom Unauthorized)
  else if negb (ListingStatus_eqb (status l) Active) then Err (Custom ListingNotActive)
  else
  let* _ := match expires_at l with
            | Some expires => require (now <? expires) ListingExpired
            | None => Ok tt
            end in
  let* l1 := match new_price with
             | Some p => let* _ := require (p <=? price_cap l) PriceExceedsCap in
                         Ok (set_price l p)
             | None => Ok l
             end in
  let* l2 := match expires_at_v with
             | Some expires => let* _ := require (now <? expires) ListingExpired in
                               Ok (set_expires_at l1 (Some expires))
             | None => Ok l1
             end in
  Ok (match allow_offers_v with
      | Some offers => set_allow_offers l2 offers
      | None => l2
      end).




(** [enforce_price_cap.rs], [handler] (lines 10-14). *)
Definition enforce_price_cap (l : Listing) : result unit :=
  require (price l <=? price_cap l) PriceExceedsCap.

End Ix.

(** ** Concrete runs *)

Example split_scenario_b :
  compute_split 1000 1000 500 100 = Ok (mkSettlement 100 50 10 840).
Proof. reflexivity. Qed.

(** ** Settlement split: lemmas *)

Lemma checked_div_10000 (m : Z) : checked_div m 10000 = Some (m / 10000).
Proof. reflexivity. Qed.

Lemma royalty_share_ok (total bp r : Z) :
  royalty_share total bp = Ok r -> r = total * bp / 10000 /\ total * bp <= U64_MAX.
Proof.
  unfold royalty_share, checked_mul, bind, ok_or.
  destruct (total * bp <=? U64_MAX) eqn:Hle; [|discriminate].
  rewrite checked_div_10000. intros H; inversion H; subst.
  split; [reflexivity | apply Z.leb_le; exact Hle].
Qed.

Lemma seller_remainder_ok (total a v p r : Z) :
  seller_remainder total a v p = Ok r ->
  r = total - a - v - p /\ a <= total /\ v <= total - a /\ p <= total - a - v.
Proof.
  unfold seller_remainder, checked_sub, bind, ok_or.
  destruct (a <=? total) eqn:H1; [|discriminate].
  destruct (v <=? total - a) eqn:H2; [|discriminate].
  destruct (p <=? total - a - v) eqn:H3; [|discriminate].
  intros H; inversion H; subst.
  apply Z.leb_le in H1, H2, H3. lia.
Qed.

Lemma seller_remainder_succeeds (total a v p : Z) :
  a + v + p <= total -> 0 <= a -> 0 <= v -> 0 <= p ->
  seller_remainder total a v p = Ok (total - a - v - p).
Proof.
  intros Hs Ha Hv Hp.
  unfold seller_remainder, checked_sub, bind, ok_or.
  destruct (a <=? total) eqn:H1; [|apply Z.leb_gt in H1; lia].
  destruct (v <=? total - a) eqn:H2; [|apply Z.leb_gt in H2; lia].
  destruct (p <=? total - a - v) eqn:H3; [|apply Z.leb_gt in H3; lia].
  reflexivity.
Qed.

Lemma compute_split_ok (t a v p : Z) (sp : Settlement) :
  compute_split t a v p = Ok sp ->
  artist_royalty sp = t * a / 10000 /\
  venue_royalty sp = t * v / 10000 /\
  platform_fee sp = t * p / 10000 /\
  seller_amount sp = t - artist_royalty sp - venue_royalty sp - platform_fee sp.
Proof.
  unfold compute_split.
  destruct (royalty_share t a) as [ra|] eqn:Ha; [|discriminate]; simpl.
  destruct (royalty_share t v) as [rv|] eqn:Hv; [|discriminate]; simpl.
  destruct (royalty_share t p) as [rp|] eqn:Hp; [|discriminate]; simpl.
  destruct (seller_remainder t ra rv rp) as [rs|] eqn:Hs; [|discriminate]; simpl.
  intros H; inversion H; subst; simpl.
  apply royalty_share_ok in Ha as [-> _].
  apply royalty_share_ok in Hv as [-> _].
  apply royalty_share_ok in Hp as [-> _].
  apply seller_remainder_ok in Hs as [-> _].
  repeat split.
Qed.

(** Floor shares of a split of at most 100% never exceed the total. *)
Lemma floor_shares_le_total (t a v p : Z) :
  0 <= t -> 0 <= a -> 0 <= v -> 0 <= p -> a + v + p <= 10000 ->
  t * a / 10000 + t * v / 10000 + t * p / 10000 <= t.
Proof.
  intros Ht Ha Hv Hp Hs.
  pose proof (Z.mul_div_le (t * a) 10000 ltac:(lia)) as Qa.
  pose proof (Z.mul_div_le (t * v) 10000 ltac:(lia)) as Qv.
  pose proof (Z.mul_div_le (t * p) 10000 ltac:(lia)) as Qp.
  assert (t * a + t * v + t * p <= t * 10000) by nia.
  lia.
Qed.

Lemma floor_share_nonneg (t bp : Z) : 0 <= t -> 0 <= bp -> 0 <= t * bp / 10000.
Proof. intros; apply Z.div_pos; nia. Qed.

(** ** Claims on the settlement split *)

(** C1: whenever the split of [buy_ticket] succeeds for a total and a
    royalty configuration, each royalty share is the floor of
    [total * bp / 10000], the seller gets the remainder, and the four
    shares add up to the total; Scenario B ([1000] with [1000/500/100]
    basis points) gives [100, 50, 10, 840]. *)
Theorem split_sums_to_total (total : Z) (cfg : Ix.RoyaltyConfig) (sp : Settlement)
  (Hsplit : compute_split total (Ix.artist_percentage cfg) (Ix.venue_percentage cfg)
              (Ix.platform_percentage cfg) = Ok sp) :
  artist_royalty sp + venue_royalty sp + platform_fee sp + seller_amount sp = total /\
  artist_royalty sp = total * Ix.artist_percentage cfg / 10000 /\
  venue_royalty sp = total * Ix.venue_percentage cfg / 10000 /\
  platform_fee sp = total * Ix.platform_percentage cfg / 10000 /\
  seller_amount sp = total - artist_royalty sp - venue_royalty sp - platform_fee sp /\
  compute_split 1000 1000 500 100 = Ok (mkSettlement 100 50 10 840).
Proof.
  apply compute_split_ok in Hsplit as (Ha & Hv & Hp & Hs).
  repeat split; try assumption; lia.
Qed.

Definition scenario_b_config : Ix.RoyaltyConfig :=
  Ix.mkRoyaltyConfig 1%nat 2%nat 3%nat 4%nat 1000 500 100 20000 5%nat 0.

Lemma split_sums_to_total_witness :
  compute_split 1000 (Ix.artist_percentage scenario_b_config)
    (Ix.venue_percentage scenario_b_config)
    (Ix.platform_percentage scenario_b_config) = Ok (mkSettlement 100 50 10 840) /\
  100 + 50 + 10 + 840 = 1000.
Proof.
  split; [reflexivity|].
  exact (proj1 (split_sums_to_total 1000 scenario_b_config
                  (mkSettlement 100 50 10 840) eq_refl)).
Defined.

(** C8: for a total in the [u64] range and basis points that sum to at
    most [10000], once the three royalty shares are computed the checked
    subtractions giving the seller's share all succeed and leave a
    non-negative amount: their [ArithmeticOverflow] branch is not taken. *)
Theorem seller_remainder_never_overflows (total artist_bp venue_bp platform_bp : Z)
  (Ht : is_u64 total) (Ha : is_u16 artist_bp) (Hv : is_u16 venue_bp)
  (Hp : is_u16 platform_bp) (Hsum : artist_bp + venue_bp + platform_bp <= 10000) :
  forall artist venue platform,
  royalty_share total artist_bp = Ok artist ->
  royalty_share total venue_bp = Ok venue ->
  royalty_share total platform_bp = Ok platform ->
  seller_remainder total artist venue platform = Ok (total - artist - venue - platform) /\
  0 <= total - artist - venue - platform.
Proof.
  unfold is_u64, is_u16 in *.
  intros artist venue platform Hra Hrv Hrp.
  apply royalty_share_ok in Hra as [-> _].
  apply royalty_share_ok in Hrv as [-> _].
  apply royalty_share_ok in Hrp as [-> _].
  pose proof (floor_shares_le_total total artist_bp venue_bp platform_bp
                ltac:(lia) ltac:(lia) ltac:(lia) ltac:(lia) Hsum).
  pose proof (floor_share_nonneg total artist_bp ltac:(lia) ltac:(lia)).
  pose proof (floor_share_nonneg total venue_bp ltac:(lia) ltac:(lia)).
  pose proof (floor_share_nonneg total platform_bp ltac:(lia) ltac:(lia)).
  split; [apply seller_remainder_succeeds; lia | lia].
Qed.

Lemma seller_remainder_never_overflows_witness :
  seller_remainder 1000 100 50 10 = Ok 840 /\ 0 <= 840.
Proof.
  assert (H := seller_remainder_never_overflows 1000 1000 500 100
                 ltac:(unfold is_u64, U64_MAX; lia) ltac:(unfold is_u16, U16_MAX; lia)
                 ltac:(unfold is_u16, U16_MAX; lia) ltac:(unfold is_u16, U16_MAX; lia)
                 ltac:(lia) 100 50 10 eq_refl eq_refl eq_refl).
  exact H.
Defined.

(** ** Lamport movements: lemmas *)

Lemma upd_other {B} (f : Pubkey -> B) k v k' : k' <> k -> upd f k v k' = f k'.
Proof. intros H; unfold upd; apply Nat.eqb_neq in H; rewrite H; reflexivity. Qed.

Lemma system_transfer_ok (f t : Pubkey) (amt : Z) (s s' : State) :
  system_transfer f t amt s = Ok s' ->
  log s' = log s ++ [mkMovement f t amt] /\
  token_holder s' = token_holder s /\
  (forall k, k <> f -> k <> t -> lamports s' k = lamports s k).
Proof.
  unfold system_transfer.
  destruct (lamports s f <? amt); [discriminate|].
  intros H; inversion H; subst; clear H; simpl.
  split; [reflexivity|]. split; [reflexivity|].
  intros k Hf Ht. rewrite (upd_other _ _ _ _ Ht). apply upd_other; exact Hf.
Qed.

Lemma direct_lamport_move_ok (t f : Pubkey) (amt : Z) (s s' : State) :
  direct_lamport_move t f amt s = Ok s' ->
  log s' = log s ++ [mkMovement f t amt] /\
  token_holder s' = token_holder s /\
  (forall k, k <> f -> k <> t -> lamports s' k = lamports s k).
Proof.
  unfold direct_lamport_move.
  destruct (U64_MAX <? lamports s t + amt); [discriminate|].
  destruct (lamports (set_lamports s t (lamports s t + amt)) f <? amt); [discriminate|].
  intros H; inversion H; subst; clear H; simpl.
  split; [reflexivity|]. split; [reflexivity|].
  intros k Hf Ht. rewrite (upd_other _ _ _ _ Hf). apply upd_other; exact Ht.
Qed.

(** ** Listing creation: lemmas *)

(** The instruction handler stores the cap computed from the royalty
    configuration and refuses a price above it. *)
Lemma ix_create_listing_ok (now : Z) (ctx : Ix.CreateListingAccounts)
  (cfg : Ix.RoyaltyConfig) (p : Z) (e : option Z) (ao : bool) (s : State)
  (l : Ix.Listing) (s' : State) :
  Ix.create_listing now ctx cfg p e ao s = Ok (l, s') ->
  Ix.price_cap l = Ix.original_price l * Ix.price_cap_multiplier cfg / 10000 /\
  Ix.price l = p /\ Ix.price l <= Ix.price_cap l /\ Ix.status l = Ix.Active.
Proof.
  unfold Ix.create_listing.
  destruct (negb _); [discriminate|].
  unfold checked_mul, bind, ok_or.
  destruct (5000000000 * Ix.price_cap_multiplier cfg <=? U64_MAX); [|discriminate].
  rewrite checked_div_10000. unfold require.
  destruct (p <=? 5000000000 * Ix.price_cap_multiplier cfg / 10000) eqn:Hp; [|discriminate].
  destruct e as [ex|]; [destruct (now <? ex); [|discriminate]|];
  (destruct (token_transfer _ _ _ s); [|discriminate]);
  intros H; injection H as <- <-; apply Z.leb_le in Hp;
  cbn [Ix.price_cap Ix.original_price Ix.price Ix.status];
  repeat split; assumption.
Qed.


(** ** English auction bids: lemmas *)

(** The escrowing [place_bid] of [temp_auction_fix.rs], when it outbids
    another bidder holding a positive bid, first moves that bid from the
    auction account to the previous-bidder account, then the new bid from
    the bidder to the auction account. *)
Lemma fix_place_bid_refund_then_deposit (now : Z) (ctx : AuctionFix.PlaceBidAccounts)
  (bid : Z) (a : StateMod.Auction) (s : State) (a' : StateMod.Auction) (s' : State)
  (prev : Pubkey) :
  AuctionFix.place_bid now ctx bid a s = Ok (a', s') ->
  StateMod.highest_bidder a = Some prev -> prev <> AuctionFix.pb_bidder ctx ->
  0 < StateMod.current_bid a ->
  log s' = log s ++ [mkMovement (AuctionFix.pb_auction ctx)
                       (AuctionFix.pb_previous_bidder ctx) (StateMod.current_bid a);
                     mkMovement (AuctionFix.pb_bidder ctx) (AuctionFix.pb_auction ctx) bid] /\
  StateMod.current_bid a' = bid /\ StateMod.highest_bidder a' = Some (AuctionFix.pb_bidder ctx).
Proof.
  intros H Hprev Hne Hpos. unfold AuctionFix.place_bid, require, bind in H.
  destruct (StateMod.AuctionStatus_eqb _ _); [|discriminate].
  destruct (now <? StateMod.end_time a); [|discriminate].
  destruct (StateMod.AuctionType_eqb _ _); [|discriminate].
  destruct (StateMod.current_bid a <? bid); [|discriminate].
  rewrite Hprev in H.
  apply Nat.eqb_neq in Hne. rewrite Hne in H.
  apply Z.ltb_lt in Hpos. rewrite Hpos in H. cbn [negb andb] in H.
  destruct (direct_lamport_move _ _ _ s) as [s1|] eqn:H1; [|discriminate].
  destruct (system_transfer _ _ _ s1) as [s2|] eqn:H2; [|discriminate].
  injection H as <- <-.
  apply direct_lamport_move_ok in H1 as [L1 _].
  apply system_transfer_ok in H2 as [L2 _].
  rewrite L2, L1, <- app_assoc. repeat split.
Qed.

(** ** Concrete accounts *)

(** Every account holds one SOL; every ticket unit sits in account [0]. *)
Definition demo_state : State :=
  mkState (fun _ => 1000000000) (fun _ => 0%nat) [].

Definition demo_create_ctx : Ix.CreateListingAccounts :=
  Ix.mkCreateListingAccounts 1%nat 10%nat 0%nat 12%nat.

(** Scenario C: starting bid [100], bidder [3] holds the bid [150]. *)
Definition auction_c : StateMod.Auction :=
  StateMod.mkAuction 10%nat 1%nat 100 150 (Some 3%nat) 1000 StateMod.English
    StateMod.AActive.

Definition fails_with_name {A} (r : result A) (n : string) : Prop :=
  exists e, r = Err e /\ error_name e = n.

(** ** Claims on listings and bids *)

(** C2 (a defect of [src/lib.rs]): in Scenario C, bidder [4] outbids
    bidder [3] (bid [150]) with [200].  The [place_bid] of the program's
    [#[program]] module accepts the bid and returns the accounts as they
    were: bidder [3] gets no refund and no bid is escrowed.  The sibling
    [place_bid] of [temp_auction_fix.rs] on the same input first refunds
    [150] from the auction account [9] to [3], then escrows [200] from [4]. *)
Theorem lib_place_bid_no_refund :
  Lib.place_bid 0 4%nat 200 auction_c demo_state =
    Ok (StateMod.mkAuction 10%nat 1%nat 100 200 (Some 4%nat) 1000 StateMod.English
          StateMod.AActive, demo_state) /\
  lamports demo_state 3%nat = 1000000000 /\ log demo_state = [] /\
  exists a' s',
    AuctionFix.place_bid 0 (AuctionFix.mkPlaceBidAccounts 9%nat 4%nat 3%nat) 200
      auction_c demo_state = Ok (a', s') /\
    log s' = [mkMovement 9%nat 3%nat 150; mkMovement 4%nat 9%nat 200] /\
    lamports s' 3%nat = 1000000150.
Proof.
  split; [reflexivity|]. split; [reflexivity|]. split; [reflexivity|].
  do 2 eexists. split; [reflexivity|]. split; reflexivity.
Qed.

(** C3 (a defect of [src/lib.rs]): Scenario A.  The [create_listing] of
    the program's [#[program]] module stores the price [10_000_000_001]
    above the cap [10_000_000_000] it stores and succeeds.  The handler of
    [src/instructions/create_listing.rs], with a [20000] basis-point cap
    multiplier, refuses that price with [PriceExceedsCap] and accepts
    [10_000_000_000] with the cap [10_000_000_000]. *)
Theorem lib_create_listing_ignores_cap :
  (exists l, Lib.create_listing 10%nat 1%nat 10000000001 None false = Ok l /\
     StateMod.price l = 10000000001 /\ StateMod.price_cap l = 10000000000 /\
     StateMod.price_cap l < StateMod.price l) /\
  Ix.create_listing 0 demo_create_ctx scenario_b_config 10000000001 None false
    demo_state = Err (Custom PriceExceedsCap) /\
  (exists l s', Ix.create_listing 0 demo_create_ctx scenario_b_config 10000000000
     None false demo_state = Ok (l, s') /\ Ix.price_cap l = 10000000000).
Proof.
  split; [eexists; split; [reflexivity|]; cbn; lia|].
  split; [reflexivity|].
  do 2 eexists; split; reflexivity.
Qed.

(** C4: buying a listing that is not [Active] fails with
    [ListingNotActive] and commits nothing: the listing and every balance
    and token holding stay as they were.  For the handler of
    [src/instructions/buy_ticket.rs] the status constraint is the first
    check, whatever the other accounts; for [buy_ticket] of [src/lib.rs]
    it is the first check after the account-key constraints. *)
Theorem buy_inactive_listing_fails :
  (forall now ctx (l : Ix.Listing) cfg s, Ix.status l <> Ix.Active ->
     Ix.buy_ticket now ctx l cfg s = Err (Custom ListingNotActive) /\
     commit l s (Ix.buy_ticket now ctx l cfg s) = (l, s)) /\
  (forall ctx (l : StateMod.Listing) cfg s, StateMod.status l <> StateMod.Active ->
     Lib.check_buy_accounts ctx l cfg = Ok tt ->
     Lib.buy_ticket ctx l cfg s = Err (Custom ListingNotActive) /\
     commit l s (Lib.buy_ticket ctx l cfg s) = (l, s)).
Proof.
  split.
  - intros now ctx l cfg s Hst.
    assert (E : Ix.buy_ticket now ctx l cfg s = Err (Custom ListingNotActive)).
    { unfold Ix.buy_ticket, Ix.check_buy_accounts.
      destruct (Ix.status l); [contradiction Hst; reflexivity| | |]; reflexivity. }
    rewrite E. split; reflexivity.
  - intros ctx l cfg s Hst Hacc.
    assert (E : Lib.buy_ticket ctx l cfg s = Err (Custom ListingNotActive)).
    { unfold Lib.buy_ticket. rewrite Hacc. cbn [bind]. unfold require.
      destruct (StateMod.status l); [contradiction Hst; reflexivity| |]; reflexivity. }
    rewrite E. split; reflexivity.
Qed.

Definition sold_listing_ix : Ix.Listing :=
  Ix.mkListing 10%nat 1%nat 1000 None false 0 Ix.Sold 5000000000 10000000000.

Definition cancelled_listing_lib : StateMod.Listing :=
  StateMod.mkListing 10%nat 1%nat 1000 5000000000 10000000000 StateMod.Cancelled.

Definition lib_config_b : StateMod.RoyaltyConfig :=
  StateMod.mkRoyaltyConfig 5%nat 2%nat 3%nat 4%nat 1000 500 100 20000.

Definition demo_ix_buy_ctx : Ix.BuyTicketAccounts :=
  Ix.mkBuyTicketAccounts 7%nat 1%nat 8%nat 0%nat 2%nat 3%nat 4%nat.

Definition demo_lib_buy_ctx : Lib.BuyTicketAccounts :=
  Lib.mkBuyTicketAccounts 7%nat 1%nat 2%nat 3%nat.

Lemma buy_inactive_listing_fails_witness :
  Ix.buy_ticket 0 demo_ix_buy_ctx sold_listing_ix scenario_b_config demo_state =
    Err (Custom ListingNotActive) /\
  Lib.buy_ticket demo_lib_buy_ctx cancelled_listing_lib lib_config_b demo_state =
    Err (Custom ListingNotActive).
Proof.
  split.
  - exact (proj1 (proj1 buy_inactive_listing_fails 0 demo_ix_buy_ctx sold_listing_ix
                    scenario_b_config demo_state ltac:(discriminate))).
  - exact (proj1 (proj2 buy_inactive_listing_fails demo_lib_buy_ctx cancelled_listing_lib
                    lib_config_b demo_state ltac:(discriminate) eq_refl)).
Defined.

(** ** Claims on bids that are too low *)

(** C6, as stated, fails: in Scenario C the bid [140] against the current
    bid [150] is refused by both [place_bid]s, but with the error
    [InsufficientFunds]; no error of the program is named [BidTooLow]. *)
Lemma low_bid_not_bid_too_low :
  Lib.place_bid 0 4%nat 140 auction_c demo_state = Err (Custom InsufficientFunds) /\
  ~ fails_with_name (Lib.place_bid 0 4%nat 140 auction_c demo_state) "BidTooLow" /\
  ~ fails_with_name (AuctionFix.place_bid 0 (AuctionFix.mkPlaceBidAccounts 9%nat 4%nat 3%nat)
                       140 auction_c demo_state) "BidTooLow".
Proof.
  split; [reflexivity|].
  split; intros [e [He Hn]]; cbn in He; injection He as <-; cbn in Hn; discriminate.
Qed.

(** C6, amended: on an [Active] English auction before its [end_time],
    a bid not above [current_bid] makes both [place_bid]s fail with
    [InsufficientFunds]; nothing is committed, so the auction record and
    every balance stay as they were. *)
Theorem low_bid_rejected (now : Z) (bidder : Pubkey) (ctx : AuctionFix.PlaceBidAccounts)
  (bid : Z) (a : StateMod.Auction) (s : State)
  (Hst : StateMod.a_status a = StateMod.AActive) (Htime : now < StateMod.end_time a)
  (Hty : StateMod.auction_type a = StateMod.English)
  (Hlow : bid <= StateMod.current_bid a) :
  Lib.place_bid now bidder bid a s = Err (Custom InsufficientFunds) /\
  commit a s (Lib.place_bid now bidder bid a s) = (a, s) /\
  AuctionFix.place_bid now ctx bid a s = Err (Custom InsufficientFunds) /\
  commit a s (AuctionFix.place_bid now ctx bid a s) = (a, s).
Proof.
  assert (Ht : (now <? StateMod.end_time a) = true) by (apply Z.ltb_lt; exact Htime).
  assert (Hb : (StateMod.current_bid a <? bid) = false) by (apply Z.ltb_ge; exact Hlow).
  assert (E1 : Lib.place_bid now bidder bid a s = Err (Custom InsufficientFunds)).
  { unfold Lib.place_bid, require. rewrite Hst, Ht, Hb. reflexivity. }
  assert (E2 : AuctionFix.place_bid now ctx bid a s = Err (Custom InsufficientFunds)).
  { unfold AuctionFix.place_bid, require. rewrite Hst, Ht, Hty, Hb. reflexivity. }
  rewrite E1, E2. repeat split.
Qed.

Lemma low_bid_rejected_witness :
  Lib.place_bid 0 4%nat 140 auction_c demo_state = Err (Custom InsufficientFunds) /\
  AuctionFix.place_bid 0 (AuctionFix.mkPlaceBidAccounts 9%nat 4%nat 3%nat) 140
    auction_c demo_state = Err (Custom InsufficientFunds).
Proof.
  pose proof (low_bid_rejected 0 4%nat (AuctionFix.mkPlaceBidAccounts 9%nat 4%nat 3%nat)
                140 auction_c demo_state eq_refl ltac:(cbn; lia) eq_refl
                ltac:(cbn; lia)) as (H1 & _ & H2 & _).
  split; [exact H1 | exact H2].
Defined.

(** ** Claims on the royalty configuration *)

Definition bp_sum (c : StateMod.RoyaltyConfig) : Z :=
  StateMod.artist_percentage c + StateMod.venue_percentage c
  + StateMod.platform_percentage c.

(** C5, as stated, fails: the split [10000 + 1 + 0] is refused, but with
    [ArithmeticOverflow]; no error of the program is named
    [InvalidSplit]. *)
Lemma over_split_not_invalid_split :
  Lib.configure_royalty OverflowChecks 5%nat 2%nat 3%nat 4%nat 10000 1 0 20000 =
    Err (Custom ArithmeticOverflow) /\
  ~ fails_with_name
      (Lib.configure_royalty OverflowChecks 5%nat 2%nat 3%nat 4%nat 10000 1 0 20000)
      "InvalidSplit".
Proof.
  split; [reflexivity|].
  intros [e [He Hn]]; cbn in He; injection He as <-; cbn in Hn; discriminate.
Qed.

(** C5, amended: whatever the overflow behaviour of [u16] addition,
    basis points whose sum exceeds [10000] but stays within the [u16]
    range make [configure_royalty] fail with [ArithmeticOverflow], and no
    configuration is produced; a configuration it produces from such
    arguments has a sum of at most [10000]. *)
Theorem configure_rejects_over_split (m : OverflowMode)
  (ev aw vw pw : Pubkey) (a v p mult : Z)
  (Ha : is_u16 a) (Hv : is_u16 v) (Hp : is_u16 p)
  (Hfit : a + v + p <= U16_MAX) :
  (10000 < a + v + p ->
   Lib.configure_royalty m ev aw vw pw a v p mult = Err (Custom ArithmeticOverflow)) /\
  (forall c, Lib.configure_royalty m ev aw vw pw a v p mult = Ok c -> bp_sum c <= 10000).
Proof.
  unfold is_u16 in *.
  assert (E : opt_bind (u16_add m a v) (fun x => u16_add m x p) = Some (a + v + p)).
  { unfold u16_add. destruct (a + v <=? U16_MAX) eqn:H1; [|apply Z.leb_gt in H1; lia].
    cbn [opt_bind]. destruct (a + v + p <=? U16_MAX) eqn:H2; [reflexivity|].
    apply Z.leb_gt in H2; lia. }
  unfold Lib.configure_royalty. rewrite E. unfold require.
  destruct (a + v + p <=? 10000) eqn:H10.
  - apply Z.leb_le in H10. split; [lia|].
    intros c Hc; cbn in Hc; injection Hc as <-. unfold bp_sum; cbn; lia.
  - split; [reflexivity|]. intros c Hc; discriminate.
Qed.

Lemma configure_rejects_over_split_witness :
  Lib.configure_royalty OverflowChecks 5%nat 2%nat 3%nat 4%nat 10000 1 0 20000 =
    Err (Custom ArithmeticOverflow).
Proof.
  exact (proj1 (configure_rejects_over_split OverflowChecks 5%nat 2%nat 3%nat 4%nat
                  10000 1 0 20000
                  ltac:(unfold is_u16, U16_MAX; lia) ltac:(unfold is_u16, U16_MAX; lia)
                  ltac:(unfold is_u16, U16_MAX; lia) ltac:(unfold U16_MAX; lia))
               ltac:(lia)).
Defined.

(** C10: the guard of [configure_royalty] adds the three [u16] basis
    points with a plain [u16] addition.  For [65535 + 1 + 0] (each a
    valid [u16], sum above [10000]) the addition leaves the [u16] range:
    with overflow checks it panics before the guard is reached, and
    without them it wraps to [0], the guard passes and a configuration
    with a split of [65536] basis points is produced. *)
Theorem configure_guard_not_total :
  exists a v p,
    is_u16 a /\ is_u16 v /\ is_u16 p /\ 10000 < a + v + p /\ U16_MAX < a + v + p /\
    opt_bind (u16_add OverflowChecks a v) (fun x => u16_add OverflowChecks x p) = None /\
    Lib.configure_royalty OverflowChecks 5%nat 2%nat 3%nat 4%nat a v p 20000 = Err Panic /\
    exists c, Lib.configure_royalty Wrapping 5%nat 2%nat 3%nat 4%nat a v p 20000 = Ok c /\
      10000 < bp_sum c.
Proof.
  exists 65535, 1, 0. unfold is_u16, U16_MAX.
  repeat split; try lia; try reflexivity.
  eexists; split; [reflexivity|]. unfold bp_sum; cbn; lia.
Qed.

(** ** Lamport effects of a sequence of movements *)

(** [moves s s' ms]: going from [s] to [s'] appended exactly [ms] to the
    log, moved no unit, and changed the balance of no account that is
    neither the source nor the destination of one of [ms]. *)
Definition moves (s s' : State) (ms : list Movement) : Prop :=
  log s' = log s ++ ms /\ token_holder s' = token_holder s /\
  (forall k, Forall (fun m => k <> mv_from m /\ k <> mv_to m) ms ->
             lamports s' k = lamports s k).

Lemma moves_nil (s : State) : moves s s [].
Proof. split; [rewrite app_nil_r; reflexivity|]. split; reflexivity. Qed.

Lemma moves_app (s1 s2 s3 : State) (m1 m2 : list Movement) :
  moves s1 s2 m1 -> moves s2 s3 m2 -> moves s1 s3 (m1 ++ m2).
Proof.
  intros (L1 & T1 & B1) (L2 & T2 & B2). split; [|split].
  - rewrite L2, L1, app_assoc; reflexivity.
  - rewrite T2, T1; reflexivity.
  - intros k Hk. apply Forall_app in Hk as [Hk1 Hk2].
    rewrite (B2 k Hk2). apply B1; exact Hk1.
Qed.

Lemma moves_system_transfer (f t : Pubkey) (amt : Z) (s s' : State) :
  system_transfer f t amt s = Ok s' -> moves s s' [mkMovement f t amt].
Proof.
  intros H. apply system_transfer_ok in H as (L & T & B).
  split; [exact L|]. split; [exact T|].
  intros k Hk. inversion Hk as [|? ? [Hf Ht] _]; subst. apply B; assumption.
Qed.

Lemma moves_direct (t f : Pubkey) (amt : Z) (s s' : State) :
  direct_lamport_move t f amt s = Ok s' -> moves s s' [mkMovement f t amt].
Proof.
  intros H. apply direct_lamport_move_ok in H as (L & T & B).
  split; [exact L|]. split; [exact T|].
  intros k Hk. inversion Hk as [|? ? [Hf Ht] _]; subst. apply B; assumption.
Qed.

(** A payment [if share > 0 { pay(share) }]. *)
Definition paid_if_positive (m : Movement) : list Movement :=
  if 0 <? mv_amount m then [m] else [].

Lemma moves_if_positive (step : State -> result State) (m : Movement) (s s' : State) :
  (forall s0 s1, step s0 = Ok s1 -> moves s0 s1 [m]) ->
  (if 0 <? mv_amount m then step s else Ok s) = Ok s' ->
  moves s s' (paid_if_positive m).
Proof.
  intros Hstep H. unfold paid_if_positive.
  destruct (0 <? mv_amount m).
  - apply Hstep; exact H.
  - injection H as <-. apply moves_nil.
Qed.

Lemma sum_paid_if_positive (m : Movement) :
  0 <= mv_amount m -> sum_amounts (paid_if_positive m) = mv_amount m.
Proof.
  intros H. unfold paid_if_positive. destruct (0 <? mv_amount m) eqn:E.
  - cbn; lia.
  - apply Z.ltb_ge in E. cbn; lia.
Qed.

Lemma sum_amounts_app (m1 m2 : list Movement) :
  sum_amounts (m1 ++ m2) = sum_amounts m1 + sum_amounts m2.
Proof.
  unfold sum_amounts. induction m1 as [|m ms IH]; cbn [app fold_right]; [reflexivity|].
  rewrite IH; lia.
Qed.

Lemma Forall_paid_if_positive (P : Movement -> Prop) (m : Movement) :
  P m -> Forall P (paid_if_positive m).
Proof. intros H. unfold paid_if_positive. destruct (0 <? _); auto. Qed.

(** Nonnegative shares of a successful split. *)
Lemma compute_split_nonneg (t a v p : Z) (sp : Settlement) :
  0 <= t -> 0 <= a -> 0 <= v -> 0 <= p -> compute_split t a v p = Ok sp ->
  0 <= artist_royalty sp /\ 0 <= venue_royalty sp /\ 0 <= platform_fee sp /\
  seller_amount sp = t - artist_royalty sp - venue_royalty sp - platform_fee sp.
Proof.
  intros Ht Ha Hv Hp H. apply compute_split_ok in H as (-> & -> & -> & Hs).
  repeat split; try apply floor_share_nonneg; assumption.
Qed.

(** ** Payments of a settlement *)

Definition settlement_movements (payer seller_k artist_k venue_k : Pubkey)
    (sp : Settlement) : list Movement :=
  mkMovement payer seller_k (seller_amount sp)
  :: paid_if_positive (mkMovement payer artist_k (artist_royalty sp))
     ++ paid_if_positive (mkMovement payer venue_k (venue_royalty sp)).

(** The payments from [s] to [s'] are movements out of [payer] into the
    seller's, the artist's and the venue's accounts only; they add up to
    the total minus the platform fee, and the platform wallet, when it is
    none of these accounts, keeps its balance. *)
Definition pays_all_but_platform (s s' : State) (total : Z) (sp : Settlement)
    (payer seller_k artist_k venue_k platform_k : Pubkey) : Prop :=
  exists new,
    log s' = log s ++ new /\
    sum_amounts new = total - platform_fee sp /\
    Forall (fun m => mv_from m = payer /\
                     (mv_to m = seller_k \/ mv_to m = artist_k \/ mv_to m = venue_k)) new /\
    (~ In platform_k [payer; seller_k; artist_k; venue_k] ->
     lamports s' platform_k = lamports s platform_k).

Lemma settlement_pays_all_but_platform (s s' : State) (t a v p : Z) (sp : Settlement)
  (payer seller_k artist_k venue_k platform_k : Pubkey) :
  0 <= t -> 0 <= a -> 0 <= v -> 0 <= p -> compute_split t a v p = Ok sp ->
  moves s s' (settlement_movements payer seller_k artist_k venue_k sp) ->
  pays_all_but_platform s s' t sp payer seller_k artist_k venue_k platform_k.
Proof.
  intros Ht Ha Hv Hp Hsp (L & _ & B).
  destruct (compute_split_nonneg t a v p sp Ht Ha Hv Hp Hsp) as (Har & Hvr & _ & Hs).
  exists (settlement_movements payer seller_k artist_k venue_k sp).
  split; [exact L|]. split; [|split].
  - unfold settlement_movements. cbn [sum_amounts fold_right mv_amount].
    fold (sum_amounts (paid_if_positive (mkMovement payer artist_k (artist_royalty sp))
                       ++ paid_if_positive (mkMovement payer venue_k (venue_royalty sp)))).
    rewrite sum_amounts_app, !sum_paid_if_positive by (cbn; assumption).
    cbn [mv_amount]. lia.
  - unfold settlement_movements. constructor; [cbn; auto|].
    apply Forall_app; split; apply Forall_paid_if_positive; cbn; auto.
  - intros Hnin. apply B.
    cbn [In] in Hnin.
    assert (N1 : platform_k <> payer) by (intro E; subst; apply Hnin; tauto).
    assert (N2 : platform_k <> seller_k) by (intro E; subst; apply Hnin; tauto).
    assert (N3 : platform_k <> artist_k) by (intro E; subst; apply Hnin; tauto).
    assert (N4 : platform_k <> venue_k) by (intro E; subst; apply Hnin; tauto).
    unfold settlement_movements. constructor; [cbn; auto|].
    apply Forall_app; split; apply Forall_paid_if_positive; cbn; auto.
Qed.

(** [buy_ticket] of [src/lib.rs], when it succeeds, pays the settlement
    movements out of the buyer. *)
Lemma lib_buy_ticket_moves (ctx : Lib.BuyTicketAccounts) (l : StateMod.Listing)
  (cfg : StateMod.RoyaltyConfig) (s : State) (l' : StateMod.Listing) (s' : State) :
  Lib.buy_ticket ctx l cfg s = Ok (l', s') ->
  exists sp,
    compute_split (StateMod.price l) (StateMod.artist_percentage cfg)
      (StateMod.venue_percentage cfg) (StateMod.platform_percentage cfg) = Ok sp /\
    moves s s' (settlement_movements (Lib.bt_buyer ctx) (Lib.bt_seller ctx)
                  (Lib.bt_artist_wallet ctx) (Lib.bt_venue_wallet ctx) sp) /\
    StateMod.status l' = StateMod.Sold.
Proof.
  unfold Lib.buy_ticket.
  destruct (Lib.check_buy_accounts ctx l cfg) as [[]|]; [|discriminate]; cbn [bind].
  unfold require. destruct (StateMod.ListingStatus_eqb _ _); [|discriminate]; cbn [bind].
  destruct (compute_split _ _ _ _) as [sp|] eqn:Hsp; [|discriminate]; cbn [bind].
  destruct (system_transfer _ _ _ s) as [s1|] eqn:H1; [|discriminate]; cbn [bind].
  destruct (if 0 <? artist_royalty sp then _ else _) as [s2|] eqn:H2; [|discriminate];
    cbn [bind].
  destruct (if 0 <? venue_royalty sp then _ else _) as [s3|] eqn:H3; [|discriminate].
  intros H; injection H as <- <-.
  exists sp. split; [reflexivity|]. split; [|reflexivity].
  unfold settlement_movements.
  change (mkMovement (Lib.bt_buyer ctx) (Lib.bt_seller ctx) (seller_amount sp)
          :: ?r) with ([mkMovement (Lib.bt_buyer ctx) (Lib.bt_seller ctx) (seller_amount sp)] ++ r).
  eapply moves_app; [apply moves_system_transfer; exact H1|].
  eapply moves_app.
  - eapply moves_if_positive; [intros ? ? E; apply moves_system_transfer; exact E|].
    exact H2.
  - eapply moves_if_positive; [intros ? ? E; apply moves_system_transfer; exact E|].
    exact H3.
Qed.

(** [end_auction] of [temp_auction_fix.rs], when it succeeds with a
    winner, pays the settlement movements out of the auction account. *)
Lemma fix_end_auction_moves (now : Z) (ctx : AuctionFix.EndAuctionAccounts)
  (cfg : StateMod.RoyaltyConfig) (a : StateMod.Auction) (s : State)
  (a' : StateMod.Auction) (s' : State) (w : Pubkey) :
  StateMod.highest_bidder a = Some w ->
  AuctionFix.end_auction now ctx cfg a s = Ok (a', s') ->
  exists sp,
    compute_split (StateMod.current_bid a) (StateMod.artist_percentage cfg)
      (StateMod.venue_percentage cfg) (StateMod.platform_percentage cfg) = Ok sp /\
    moves s s' (settlement_movements (AuctionFix.ea_auction ctx) (AuctionFix.ea_seller ctx)
                  (AuctionFix.ea_artist_wallet ctx) (AuctionFix.ea_venue_wallet ctx) sp) /\
    StateMod.a_status a' = StateMod.Ended.
Proof.
  intros Hw. unfold AuctionFix.end_auction, require.
  destruct (StateMod.AuctionStatus_eqb _ _); [|discriminate]; cbn [bind].
  destruct (StateMod.end_time a <=? now); [|discriminate]; cbn [bind].
  rewrite Hw.
  destruct (compute_split _ _ _ _) as [sp|] eqn:Hsp; [|discriminate]; cbn [bind].
  destruct (direct_lamport_move _ _ _ s) as [s1|] eqn:H1; [|discriminate]; cbn [bind].
  destruct (if 0 <? artist_royalty sp then _ else _) as [s2|] eqn:H2; [|discriminate];
    cbn [bind].
  destruct (if 0 <? venue_royalty sp then _ else _) as [s3|] eqn:H3; [|discriminate].
  intros H; injection H as <- <-.
  exists sp. split; [reflexivity|]. split; [|reflexivity].
  unfold settlement_movements.
  change (mkMovement (AuctionFix.ea_auction ctx) (AuctionFix.ea_seller ctx) (seller_amount sp)
          :: ?r) with ([mkMovement (AuctionFix.ea_auction ctx) (AuctionFix.ea_seller ctx)
                         (seller_amount sp)] ++ r).
  eapply moves_app; [apply moves_direct; exact H1|].
  eapply moves_app.
  - eapply moves_if_positive; [intros ? ? E; apply moves_direct; exact E|].
    exact H2.
  - eapply moves_if_positive; [intros ? ? E; apply moves_direct; exact E|].
    exact H3.
Qed.

(** ** Claim on the platform fee *)

(** C9: [buy_ticket] of [src/lib.rs] and the winner branch of
    [end_auction] of [temp_auction_fix.rs] compute the platform fee and
    take it off the seller's share, but pay it to nobody: the only
    payments go to the seller, the artist and the venue, they add up to
    the total minus the platform fee, and the platform wallet keeps its
    balance (when it is not one of the paying or paid accounts). *)
Theorem platform_fee_never_paid :
  (forall ctx (l : StateMod.Listing) cfg s l' s',
     0 <= StateMod.price l -> 0 <= StateMod.artist_percentage cfg ->
     0 <= StateMod.venue_percentage cfg -> 0 <= StateMod.platform_percentage cfg ->
     Lib.buy_ticket ctx l cfg s = Ok (l', s') ->
     exists sp,
       compute_split (StateMod.price l) (StateMod.artist_percentage cfg)
         (StateMod.venue_percentage cfg) (StateMod.platform_percentage cfg) = Ok sp /\
       pays_all_but_platform s s' (StateMod.price l) sp (Lib.bt_buyer ctx)
         (Lib.bt_seller ctx) (Lib.bt_artist_wallet ctx) (Lib.bt_venue_wallet ctx)
         (StateMod.platform_wallet cfg)) /\
  (forall now ctx cfg (a : StateMod.Auction) s a' s' w,
     StateMod.highest_bidder a = Some w ->
     0 <= StateMod.current_bid a -> 0 <= StateMod.artist_percentage cfg ->
     0 <= StateMod.venue_percentage cfg -> 0 <= StateMod.platform_percentage cfg ->
     AuctionFix.end_auction now ctx cfg a s = Ok (a', s') ->
     exists sp,
       compute_split (StateMod.current_bid a) (StateMod.artist_percentage cfg)
         (StateMod.venue_percentage cfg) (StateMod.platform_percentage cfg) = Ok sp /\
       pays_all_but_platform s s' (StateMod.current_bid a) sp (AuctionFix.ea_auction ctx)
         (AuctionFix.ea_seller ctx) (AuctionFix.ea_artist_wallet ctx)
         (AuctionFix.ea_venue_wallet ctx) (StateMod.platform_wallet cfg)).
Proof.
  split.
  - intros ctx l cfg s l' s' Ht Ha Hv Hp H.
    apply lib_buy_ticket_moves in H as (sp & Hsp & Hm & _).
    exists sp. split; [exact Hsp|].
    eapply settlement_pays_all_but_platform;
      [exact Ht | exact Ha | exact Hv | exact Hp | exact Hsp | exact Hm].
  - intros now ctx cfg a s a' s' w Hw Ht Ha Hv Hp H.
    apply (fix_end_auction_moves _ _ _ _ _ _ _ _ Hw) in H as (sp & Hsp & Hm & _).
    exists sp. split; [exact Hsp|].
    eapply settlement_pays_all_but_platform;
      [exact Ht | exact Ha | exact Hv | exact Hp | exact Hsp | exact Hm].
Qed.

Definition active_listing_lib : StateMod.Listing :=
  StateMod.mkListing 10%nat 1%nat 1000 5000000000 10000000000 StateMod.Active.

(** Scenario C after the bid [200] of [4], ended at its end time. *)
Definition auction_won : StateMod.Auction :=
  StateMod.mkAuction 10%nat 1%nat 100 1000 (Some 4%nat) 1000 StateMod.English
    StateMod.AActive.

Definition demo_end_ctx : AuctionFix.EndAuctionAccounts :=
  AuctionFix.mkEndAuctionAccounts 9%nat 1%nat 2%nat 3%nat.

Lemma platform_fee_never_paid_witness :
  (exists l' s',
     Lib.buy_ticket demo_lib_buy_ctx active_listing_lib lib_config_b demo_state = Ok (l', s') /\
     exists sp, compute_split 1000 1000 500 100 = Ok sp /\
       pays_all_but_platform demo_state s' 1000 sp 7%nat 1%nat 2%nat 3%nat 4%nat) /\
  (exists a' s',
     AuctionFix.end_auction 1000 demo_end_ctx lib_config_b auction_won demo_state = Ok (a', s') /\
     exists sp, compute_split 1000 1000 500 100 = Ok sp /\
       pays_all_but_platform demo_state s' 1000 sp 9%nat 1%nat 2%nat 3%nat 4%nat).
Proof.
  split.
  - do 2 eexists. split; [reflexivity|].
    eapply (proj1 platform_fee_never_paid demo_lib_buy_ctx active_listing_lib lib_config_b
             demo_state _ _); cbn; try lia; reflexivity.
  - do 2 eexists. split; [reflexivity|].
    eapply (proj2 platform_fee_never_paid 1000 demo_end_ctx lib_config_b auction_won
             demo_state _ _ 4%nat); cbn; try lia; reflexivity.
Defined.

(** ** Claim on auctions that end without bids *)

(** Scenario D: starting bid [100], no bid, ended at its end time. *)
Definition auction_d : StateMod.Auction :=
  StateMod.mkAuction 10%nat 1%nat 100 100 None 1000 StateMod.English StateMod.AActive.

(** The unit of mint [10] sits in the auction's account [9]. *)
Definition unit_at_auction_state : State :=
  mkState (fun _ => 1000000000) (fun _ => 9%nat) [].

(** C7, as stated, fails: [end_auction] with no bid sets the status to
    [Cancelled] but moves no unit, so a unit held by the auction's
    account stays there instead of going back to the seller [1]. *)
Lemma no_bid_end_keeps_unit :
  exists a' s',
    AuctionFix.end_auction 1000 demo_end_ctx lib_config_b auction_d unit_at_auction_state
      = Ok (a', s') /\
    StateMod.a_status a' = StateMod.ACancelled /\
    token_holder s' 10%nat = 9%nat /\
    token_holder s' (StateMod.a_ticket_mint auction_d) <> StateMod.a_seller auction_d.
Proof.
  do 2 eexists. split; [reflexivity|]. cbn. repeat split. discriminate.
Qed.

(** C7, amended: an [Active] auction at or after its [end_time] with no
    highest bidder is ended by [end_auction] with status [Cancelled] and
    nothing else: every lamport balance, every unit holding and the log
    of movements stay as they were (no auction path escrows or releases
    the unit). *)
Theorem no_bid_end_cancels (now : Z) (ctx : AuctionFix.EndAuctionAccounts)
  (cfg : StateMod.RoyaltyConfig) (a : StateMod.Auction) (s : State)
  (Hst : StateMod.a_status a = StateMod.AActive) (Htime : StateMod.end_time a <= now)
  (Hnone : StateMod.highest_bidder a = None) :
  AuctionFix.end_auction now ctx cfg a s = Ok (AuctionFix.with_status a StateMod.ACancelled, s).
Proof.
  unfold AuctionFix.end_auction, require. rewrite Hst.
  apply Z.leb_le in Htime. rewrite Htime. cbn [bind StateMod.AuctionStatus_eqb].
  rewrite Hnone. reflexivity.
Qed.

Lemma no_bid_end_cancels_witness :
  AuctionFix.end_auction 1000 demo_end_ctx lib_config_b auction_d unit_at_auction_state =
    Ok (AuctionFix.with_status auction_d StateMod.ACancelled, unit_at_auction_state).
Proof.
  exact (no_bid_end_cancels 1000 demo_end_ctx lib_config_b auction_d
           unit_at_auction_state eq_refl ltac:(cbn; lia) eq_refl).
Defined.

(** ** Net lamport effects *)

(** [net k ms]: what the movements [ms] add to the balance of [k]. *)
Definition net (k : Pubkey) (ms : list Movement) : Z :=
  fold_right (fun m acc =>
    (if Nat.eqb k (mv_to m) then mv_amount m else 0)
    - (if Nat.eqb k (mv_from m) then mv_amount m else 0) + acc) 0 ms.

(** [nets s s' ms]: going from [s] to [s'] appended [ms] to the log and
    changed every balance by exactly what [ms] moves. *)
Definition nets (s s' : State) (ms : list Movement) : Prop :=
  log s' = log s ++ ms /\ (forall k, lamports s' k = lamports s k + net k ms).

Lemma net_app (k : Pubkey) (m1 m2 : list Movement) :
  net k (m1 ++ m2) = net k m1 + net k m2.
Proof.
  unfold net. induction m1 as [|m ms IH]; cbn [app fold_right]; [reflexivity|].
  rewrite IH; lia.
Qed.

Lemma nets_nil (s : State) : nets s s [].
Proof. split; [rewrite app_nil_r; reflexivity|]. intros k; cbn; lia. Qed.

Lemma nets_app (s1 s2 s3 : State) (m1 m2 : list Movement) :
  nets s1 s2 m1 -> nets s2 s3 m2 -> nets s1 s3 (m1 ++ m2).
Proof.
  intros [L1 B1] [L2 B2]. split.
  - rewrite L2, L1, app_assoc; reflexivity.
  - intros k. rewrite B2, B1, net_app; lia.
Qed.

Lemma nets_system_transfer (f t : Pubkey) (amt : Z) (s s' : State) :
  system_transfer f t amt s = Ok s' -> nets s s' [mkMovement f t amt].
Proof.
  unfold system_transfer.
  destruct (lamports s f <? amt); [discriminate|].
  intros H; injection H as <-. split; [reflexivity|].
  intros k. cbn. unfold upd.
  destruct (Nat.eqb k t) eqn:Et; destruct (Nat.eqb k f) eqn:Ef;
    try (apply Nat.eqb_eq in Et); try (apply Nat.eqb_eq in Ef); subst;
    try rewrite Nat.eqb_refl; try rewrite Ef; lia.
Qed.

Lemma nets_direct (t f : Pubkey) (amt : Z) (s s' : State) :
  direct_lamport_move t f amt s = Ok s' -> nets s s' [mkMovement f t amt].
Proof.
  unfold direct_lamport_move.
  destruct (U64_MAX <? lamports s t + amt); [discriminate|].
  destruct (lamports (set_lamports s t (lamports s t + amt)) f <? amt); [discriminate|].
  intros H; injection H as <-. split; [reflexivity|].
  intros k. cbn. unfold upd.
  destruct (Nat.eqb k f) eqn:Ef; destruct (Nat.eqb k t) eqn:Et;
    try (apply Nat.eqb_eq in Et); try (apply Nat.eqb_eq in Ef); subst;
    try rewrite Nat.eqb_refl; try rewrite Et; lia.
Qed.

Lemma nets_if_positive (step : State -> result State) (m : Movement) (s s' : State) :
  (forall s0 s1, step s0 = Ok s1 -> nets s0 s1 [m]) ->
  (if 0 <? mv_amount m then step s else Ok s) = Ok s' ->
  nets s s' (paid_if_positive m).
Proof.
  intros Hstep H. unfold paid_if_positive.
  destruct (0 <? mv_amount m).
  - apply Hstep; exact H.
  - injection H as <-. apply nets_nil.
Qed.

Lemma token_transfer_ok (mint f t : Pubkey) (s s' : State) :
  token_transfer mint f t s = Ok s' ->
  token_holder s mint = f /\ token_holder s' mint = t /\
  (forall m, m <> mint -> token_holder s' m = token_holder s m) /\
  lamports s' = lamports s /\ log s' = log s.
Proof.
  unfold token_transfer. destruct (Nat.eqb (token_holder s mint) f) eqn:E; [|discriminate].
  intros H; injection H as <-. apply Nat.eqb_eq in E.
  cbn. split; [exact E|]. split; [unfold upd; rewrite Nat.eqb_refl; reflexivity|].
  split; [intros m Hm; apply upd_other; exact Hm|]. split; reflexivity.
Qed.

(** The balance of a payer that pays every movement and receives none
    drops by their sum. *)
Lemma net_payer (b : Pubkey) (ms : list Movement) :
  Forall (fun m => mv_from m = b /\ mv_to m <> b) ms -> net b ms = - sum_amounts ms.
Proof.
  unfold net, sum_amounts. induction 1 as [|m ms [Hf Ht] _ IH]; [reflexivity|].
  cbn [fold_right]. rewrite IH, Hf, Nat.eqb_refl.
  apply Nat.eqb_neq in Ht. rewrite Nat.eqb_sym, Ht. lia.
Qed.

(** ** Further properties: listings of [src/instructions/] *)






(** ** Further properties: [update_listing] *)

Ltac close_fields :=
  repeat match goal with
  | H : Nat.eqb _ _ = true |- _ => apply Nat.eqb_eq in H
  | H : (_ <? _) = true |- _ => apply Z.ltb_lt in H
  | H : (_ <=? _) = true |- _ => apply Z.leb_le in H
  | |- _ /\ _ => split
  | |- forall _, _ = _ -> _ =>
      let x := fresh "x" in let Hx := fresh "Hx" in
      intros x Hx; first [discriminate Hx | injection Hx as <-]
  end; try reflexivity; try assumption; try congruence.

Lemma ListingStatus_eqb_true (a b : Ix.ListingStatus) :
  Ix.ListingStatus_eqb a b = true -> a = b.
Proof. destruct a, b; cbn; congruence. Qed.

Lemma ListingStatus_eqb_refl (a : Ix.ListingStatus) : Ix.ListingStatus_eqb a a = true.
Proof. destruct a; reflexivity. Qed.

(** A successful [update_listing] was signed by the seller on an active,
    unexpired listing; it writes exactly the fields that were supplied (a
    new price within the cap, a new expiry in the future, the offer flag)
    and leaves every other field, the cap and the status included, as it
    was. *)
Theorem ix_update_listing_fields (now : Z) (signer : Pubkey) (l : Ix.Listing)
  (np ne : option Z) (no : option bool) (l' : Ix.Listing)
  (H : Ix.update_listing now signer l np ne no = Ok l') :
  signer = Ix.seller l /\ Ix.status l = Ix.Active /\
  (forall e, Ix.expires_at l = Some e -> now < e) /\
  Ix.price l' = match np with Some p => p | None => Ix.price l end /\
  (forall p, np = Some p -> p <= Ix.price_cap l) /\
  Ix.expires_at l' = match ne with Some e => Some e | None => Ix.expires_at l end /\
  (forall e, ne = Some e -> now < e) /\
  Ix.allow_offers l' = match no with Some b => b | None => Ix.allow_offers l end /\
  Ix.ticket_mint l' = Ix.ticket_mint l /\ Ix.seller l' = Ix.seller l /\
  Ix.status l' = Ix.status l /\ Ix.original_price l' = Ix.original_price l /\
  Ix.price_cap l' = Ix.price_cap l /\ Ix.created_at l' = Ix.created_at l.
Proof.
  revert H. unfold Ix.update_listing.
  destruct (Nat.eqb (Ix.seller l) signer) eqn:E1; cbn [negb]; [|discriminate].
  destruct (Ix.ListingStatus_eqb (Ix.status l) Ix.Active) eqn:E2; cbn [negb]; [|discriminate].
  apply ListingStatus_eqb_true in E2.
  unfold require, bind.
  destruct (Ix.expires_at l) as [x|] eqn:E3;
    [destruct (now <? x) eqn:E4; [|discriminate]|];
  (destruct np as [p|]; [destruct (p <=? Ix.price_cap l) eqn:E5; [|discriminate]|]);
  (destruct ne as [e|]; [destruct (now <? e) eqn:E6; [|discriminate]|]);
  destruct no; intros H; injection H as <-; cbn; rewrite ?E3; close_fields.
Qed.

Lemma ix_update_listing_fields_witness :
  Ix.update_listing 0 1%nat (Ix.mkListing 10%nat 1%nat 1000 None false 0 Ix.Active
                               5000000000 10000000000) (Some 2000) None (Some true)
  = Ok (Ix.mkListing 10%nat 1%nat 2000 None true 0 Ix.Active 5000000000 10000000000) /\
  Ix.price_cap (Ix.mkListing 10%nat 1%nat 2000 None true 0 Ix.Active 5000000000 10000000000)
  = 10000000000.
Proof.
  split; [reflexivity|].
  pose proof (ix_update_listing_fields 0 1%nat
              (Ix.mkListing 10%nat 1%nat 1000 None false 0 Ix.Active 5000000000 10000000000)
              (Some 2000) None (Some true) _ eq_refl)
    as (_ & _ & _ & _ & _ & _ & _ & _ & _ & _ & _ & _ & Hcap & _).
  exact Hcap.
Defined.

(** [update_listing] fails with [Unauthorized] when not signed by the
    seller; on the seller's active listing it fails with [ListingExpired]
    once the listing's expiry has passed, whatever is being updated (the
    expiry cannot be pushed back), and with [PriceExceedsCap] for a new
    price above the cap. *)
Theorem ix_update_listing_errors :
  (forall now signer l np ne no, Ix.seller l <> signer ->
     Ix.update_listing now signer l np ne no = Err (Custom Unauthorized)) /\
  (forall now l np ne no e, Ix.status l = Ix.Active -> Ix.expires_at l = Some e ->
     e <= now ->
     Ix.update_listing now (Ix.seller l) l np ne no = Err (Custom ListingExpired)) /\
  (forall now l p ne no, Ix.status l = Ix.Active ->
     (forall e, Ix.expires_at l = Some e -> now < e) -> Ix.price_cap l < p ->
     Ix.update_listing now (Ix.seller l) l (Some p) ne no = Err (Custom PriceExceedsCap)).
Proof.
  split; [|split].
  - intros now signer l np ne no Hne. unfold Ix.update_listing.
    apply Nat.eqb_neq in Hne. rewrite Hne. reflexivity.
  - intros now l np ne no e Hst He Hle. unfold Ix.update_listing.
    rewrite Nat.eqb_refl, Hst. cbn [negb Ix.ListingStatus_eqb]. rewrite He.
    unfold require, bind. destruct (now <? e) eqn:E; [apply Z.ltb_lt in E; lia|].
    reflexivity.
  - intros now l p ne no Hst Hexp Hp. unfold Ix.update_listing.
    rewrite Nat.eqb_refl, Hst. cbn [negb Ix.ListingStatus_eqb]. unfold require, bind.
    assert (Ek : (match Ix.expires_at l with
                  | Some expires => if now <? expires then Ok tt else Err (Custom ListingExpired)
                  | None => Ok tt end) = Ok tt).
    { destruct (Ix.expires_at l) as [e|]; [|reflexivity].
      rewrite (proj2 (Z.ltb_lt now e) (Hexp e eq_refl)). reflexivity. }
    rewrite Ek. destruct (p <=? Ix.price_cap l) eqn:E; [apply Z.leb_le in E; lia|].
    reflexivity.
Qed.

Definition listing_expiring_100 : Ix.Listing :=
  Ix.mkListing 10%nat 1%nat 1000 (Some 100) true 0 Ix.Active 5000000000 10000000000.

Lemma ix_update_listing_errors_witness :
  Ix.update_listing 0 2%nat listing_expiring_100 None None None = Err (Custom Unauthorized) /\
  Ix.update_listing 100 1%nat listing_expiring_100 None (Some 500) None
    = Err (Custom ListingExpired) /\
  Ix.update_listing 0 1%nat listing_expiring_100 (Some 10000000001) None None
    = Err (Custom PriceExceedsCap).
Proof.
  destruct ix_update_listing_errors as (H1 & H2 & H3).
  split; [|split].
  - apply H1; discriminate.
  - apply (H2 100 listing_expiring_100 None (Some 500) None 100); [reflexivity|reflexivity|lia].
  - apply H3; [reflexivity| |cbn; lia].
    intros e He; injection He as <-; lia.
Defined.

(** The price and the cap after a successful [update_listing]. *)
Lemma ix_update_listing_price (now : Z) (signer : Pubkey) (l : Ix.Listing)
  (np ne : option Z) (no : option bool) (l' : Ix.Listing) :
  Ix.update_listing now signer l np ne no = Ok l' ->
  Ix.price l' = match np with Some p => p | None => Ix.price l end /\
  (forall p, np = Some p -> p <= Ix.price_cap l) /\
  Ix.price_cap l' = Ix.price_cap l.
Proof.
  unfold Ix.update_listing.
  destruct (Nat.eqb (Ix.seller l) signer); cbn [negb]; [|discriminate].
  destruct (Ix.ListingStatus_eqb (Ix.status l) Ix.Active); cbn [negb]; [|discriminate].
  unfold require, bind.
  destruct (Ix.expires_at l) as [x|] eqn:E3;
    [destruct (now <? x) eqn:E4; [|discriminate]|];
  (destruct np as [p|]; [destruct (p <=? Ix.price_cap l) eqn:E5; [|discriminate]|]);
  (destruct ne as [e|]; [destruct (now <? e) eqn:E6; [|discriminate]|]);
  destruct no; intros H; injection H as <-; cbn; close_fields.
Qed.

(** The check of [enforce_price_cap] passes on every listing
    [create_listing] produces, and [update_listing] keeps it passing. *)
Theorem ix_price_cap_enforced :
  (forall now ctx cfg p e ao s l s',
     Ix.create_listing now ctx cfg p e ao s = Ok (l, s') -> Ix.enforce_price_cap l = Ok tt) /\
  (forall now signer l np ne no l',
     Ix.enforce_price_cap l = Ok tt -> Ix.update_listing now signer l np ne no = Ok l' ->
     Ix.enforce_price_cap l' = Ok tt).
Proof.
  unfold Ix.enforce_price_cap, require. split.
  - intros now ctx cfg p e ao s l s' H.
    apply ix_create_listing_ok in H as (_ & Hp & Hle & _).
    apply Z.leb_le in Hle. rewrite Hle. reflexivity.
  - intros now signer l np ne no l' Hl H.
    apply ix_update_listing_price in H as (Hp & Hpc & Hcap).
    destruct (Ix.price l <=? Ix.price_cap l) eqn:E; [|discriminate]. apply Z.leb_le in E.
    rewrite Hp, Hcap.
    destruct np as [p|]; [rewrite (proj2 (Z.leb_le p _) (Hpc p eq_refl)) |
                          rewrite (proj2 (Z.leb_le _ _) E)]; reflexivity.
Qed.

Lemma ix_price_cap_enforced_witness :
  Ix.enforce_price_cap (Ix.mkListing 10%nat 1%nat 2000 None true 0 Ix.Active
                          5000000000 10000000000) = Ok tt.
Proof.
  apply (proj2 ix_price_cap_enforced 0 1%nat
           (Ix.mkListing 10%nat 1%nat 1000 None false 0 Ix.Active 5000000000 10000000000)
           (Some 2000) None (Some true)); reflexivity.
Defined.

(** ** Further properties: [cancel_listing], [make_offer], [buy_ticket] *)

(** A successful [cancel_listing] was signed by the seller on an active
    listing; it moves the unit from the escrow account to the seller's
    token account, sets the status to [Cancelled] and moves no lamport. *)
Theorem ix_cancel_listing_returns_unit (ctx : Ix.CancelListingAccounts) (l : Ix.Listing)
  (s : State) (l' : Ix.Listing) (s' : State)
  (H : Ix.cancel_listing ctx l s = Ok (l', s')) :
  Ix.seller l = Ix.cx_seller ctx /\ Ix.status l = Ix.Active /\
  l' = Ix.with_status l Ix.Cancelled /\
  token_holder s (Ix.ticket_mint l) = Ix.cx_escrow_token_account ctx /\
  token_holder s' (Ix.ticket_mint l) = Ix.cx_seller_token_account ctx /\
  lamports s' = lamports s /\ log s' = log s.
Proof.
  revert H. unfold Ix.cancel_listing.
  destruct (Nat.eqb (Ix.seller l) (Ix.cx_seller ctx)) eqn:E1; cbn [negb]; [|discriminate].
  destruct (Ix.ListingStatus_eqb (Ix.status l) Ix.Active) eqn:E2; cbn [negb]; [|discriminate].
  destruct (Nat.eqb _ (Ix.cx_escrow_token_account ctx)) eqn:E3; cbn [negb]; [|discriminate].
  destruct (token_transfer _ _ _ s) as [s1|] eqn:Ht; [|discriminate].
  intros H; injection H as <- <-.
  apply ListingStatus_eqb_true in E2. apply Nat.eqb_eq in E1.
  apply token_transfer_ok in Ht as (Hh & Ht1 & _ & Hl & Hg).
  repeat split; assumption.
Qed.

Definition demo_cancel_ctx : Ix.CancelListingAccounts :=
  Ix.mkCancelListingAccounts 1%nat 11%nat 0%nat.

Lemma ix_cancel_listing_returns_unit_witness :
  exists l' s',
    Ix.cancel_listing demo_cancel_ctx listing_expiring_100 demo_state = Ok (l', s') /\
    token_holder s' 10%nat = 11%nat.
Proof.
  do 2 eexists. split; [reflexivity|].
  exact (proj1 (proj2 (proj2 (proj2 (proj2 (ix_cancel_listing_returns_unit
           demo_cancel_ctx listing_expiring_100 demo_state _ _ eq_refl)))))).
Defined.






Lemma ix_check_buy_ok (ctx : Ix.BuyTicketAccounts) (l : Ix.Listing) (cfg : Ix.RoyaltyConfig)
  (s : State) :
  Ix.check_buy_accounts ctx l cfg s = Ok tt ->
  Ix.status l = Ix.Active /\ Ix.bt_seller ctx = Ix.seller l /\
  token_holder s (Ix.ticket_mint l) = Ix.bt_escrow_token_account ctx /\
  Ix.bt_artist_wallet ctx = Ix.artist_wallet cfg /\
  Ix.bt_venue_wallet ctx = Ix.venue_wallet cfg /\
  Ix.bt_platform_wallet ctx = Ix.platform_wallet cfg.
Proof.
  unfold Ix.check_buy_accounts.
  destruct (Ix.ListingStatus_eqb _ _) eqn:E1; cbn [negb]; [|discriminate].
  destruct (Nat.eqb (Ix.bt_seller ctx) _) eqn:E2; cbn [negb]; [|discriminate].
  destruct (Nat.eqb (token_holder s _) _) eqn:E3; cbn [negb]; [|discriminate].
  destruct (Nat.eqb (Ix.bt_artist_wallet ctx) _) eqn:E4; cbn [negb]; [|discriminate].
  destruct (Nat.eqb (Ix.bt_venue_wallet ctx) _) eqn:E5; cbn [negb]; [|discriminate].
  destruct (Nat.eqb (Ix.bt_platform_wallet ctx) _) eqn:E6; cbn [negb]; [|discriminate].
  intros _. apply ListingStatus_eqb_true in E1.
  apply Nat.eqb_eq in E2, E3, E4, E5, E6. auto 7.
Qed.

(** A successful [buy_ticket] of [src/instructions/buy_ticket.rs] pays
    the whole price out of the buyer, split between the seller, the
    artist, the venue and the platform wallet (the platform fee included),
    moves the unit from the escrow account to the buyer's token account
    and marks the listing [Sold]; a buyer that is none of the payees ends
    exactly the price poorer. *)
Theorem ix_buy_ticket_pays_price (now : Z) (ctx : Ix.BuyTicketAccounts) (l : Ix.Listing)
  (cfg : Ix.RoyaltyConfig) (s : State) (l' : Ix.Listing) (s' : State)
  (Hp : 0 <= Ix.price l) (Ha : 0 <= Ix.artist_percentage cfg)
  (Hv : 0 <= Ix.venue_percentage cfg) (Hf : 0 <= Ix.platform_percentage cfg)
  (H : Ix.buy_ticket now ctx l cfg s = Ok (l', s')) :
  l' = Ix.with_status l Ix.Sold /\
  token_holder s (Ix.ticket_mint l) = Ix.bt_escrow_token_account ctx /\
  token_holder s' (Ix.ticket_mint l) = Ix.bt_buyer_token_account ctx /\
  (exists new, log s' = log s ++ new /\ sum_amounts new = Ix.price l /\
     Forall (fun m => mv_from m = Ix.bt_buyer ctx /\
               In (mv_to m) [Ix.bt_seller ctx; Ix.bt_artist_wallet ctx;
                             Ix.bt_venue_wallet ctx; Ix.bt_platform_wallet ctx]) new) /\
  (~ In (Ix.bt_buyer ctx) [Ix.bt_seller ctx; Ix.bt_artist_wallet ctx;
                           Ix.bt_venue_wallet ctx; Ix.bt_platform_wallet ctx] ->
   lamports s' (Ix.bt_buyer ctx) = lamports s (Ix.bt_buyer ctx) - Ix.price l).
Proof.
  revert H. unfold Ix.buy_ticket.
  destruct (Ix.check_buy_accounts ctx l cfg s) as [[]|] eqn:Ec; [|discriminate]; cbn [bind].
  apply ix_check_buy_ok in Ec as (_ & _ & Hesc & _).
  destruct (match Ix.expires_at l with Some _ => _ | None => _ end) as [[]|];
    [|discriminate]; cbn [bind].
  destruct (compute_split _ _ _ _) as [sp|] eqn:Hsp; [|discriminate]; cbn [bind].
  destruct (system_transfer _ _ _ s) as [s1|] eqn:H1; [|discriminate]; cbn [bind].
  destruct (if 0 <? artist_royalty sp then _ else _) as [s2|] eqn:H2; [|discriminate];
    cbn [bind].
  destruct (if 0 <? venue_royalty sp then _ else _) as [s3|] eqn:H3; [|discriminate];
    cbn [bind].
  destruct (if 0 <? platform_fee sp then _ else _) as [s4|] eqn:H4; [|discriminate];
    cbn [bind].
  destruct (token_transfer _ _ _ s4) as [s5|] eqn:H5; [|discriminate].
  intros H; injection H as <- <-.
  destruct (compute_split_nonneg _ _ _ _ sp Hp Ha Hv Hf Hsp) as (Har & Hvr & Hpf & Hs).
  set (b := Ix.bt_buyer ctx).
  set (ms := [mkMovement b (Ix.bt_seller ctx) (seller_amount sp)]
             ++ paid_if_positive (mkMovement b (Ix.bt_artist_wallet ctx) (artist_royalty sp))
             ++ paid_if_positive (mkMovement b (Ix.bt_venue_wallet ctx) (venue_royalty sp))
             ++ paid_if_positive (mkMovement b (Ix.bt_platform_wallet ctx) (platform_fee sp))).
  assert (N : nets s s4 ms).
  { unfold ms. eapply nets_app; [apply nets_system_transfer; exact H1|].
    eapply nets_app;
      [eapply nets_if_positive; [intros ? ? E; apply nets_system_transfer; exact E | exact H2]|].
    eapply nets_app;
      [eapply nets_if_positive; [intros ? ? E; apply nets_system_transfer; exact E | exact H3]|].
    eapply nets_if_positive; [intros ? ? E; apply nets_system_transfer; exact E | exact H4]. }
  assert (Sum : sum_amounts ms = Ix.price l).
  { unfold ms. rewrite !sum_amounts_app, !sum_paid_if_positive by (cbn; assumption).
    cbn [sum_amounts fold_right mv_amount]. lia. }
  assert (Dst : Forall (fun m => mv_from m = b /\
               In (mv_to m) [Ix.bt_seller ctx; Ix.bt_artist_wallet ctx;
                             Ix.bt_venue_wallet ctx; Ix.bt_platform_wallet ctx]) ms).
  { unfold ms. apply Forall_app; split; [|apply Forall_app; split; [|apply Forall_app; split]].
    - constructor; [|constructor]. cbn [mv_from mv_to]. split; [reflexivity|]. left; reflexivity.
    - apply Forall_paid_if_positive. cbn [mv_from mv_to]. split; [reflexivity|].
      right; left; reflexivity.
    - apply Forall_paid_if_positive. cbn [mv_from mv_to]. split; [reflexivity|].
      right; right; left; reflexivity.
    - apply Forall_paid_if_positive. cbn [mv_from mv_to]. split; [reflexivity|].
      right; right; right; left; reflexivity. }
  destruct N as [L B].
  apply token_transfer_ok in H5 as (Hh & Ht5 & _ & Hl5 & Hg5).
  split; [reflexivity|]. split; [exact Hesc|]. split; [exact Ht5|]. split.
  - exists ms. rewrite Hg5. split; [exact L|]. split; [exact Sum | exact Dst].
  - intros Hnin. rewrite Hl5, B, net_payer; [lia|].
    eapply Forall_impl; [|exact Dst]. intros m [Hm1 Hm2]. split; [exact Hm1|].
    intros E. apply Hnin. rewrite <- E. exact Hm2.
Qed.

Definition active_listing_ix : Ix.Listing :=
  Ix.mkListing 10%nat 1%nat 1000 None false 0 Ix.Active 5000000000 10000000000.

Lemma ix_buy_ticket_pays_price_witness :
  exists l' s',
    Ix.buy_ticket 0 demo_ix_buy_ctx active_listing_ix scenario_b_config demo_state
      = Ok (l', s') /\
    lamports s' 7%nat = 1000000000 - 1000 /\ token_holder s' 10%nat = 8%nat.
Proof.
  do 2 eexists. split; [reflexivity|].
  pose proof (ix_buy_ticket_pays_price 0 demo_ix_buy_ctx active_listing_ix scenario_b_config
                demo_state _ _ ltac:(cbn; lia) ltac:(cbn; lia) ltac:(cbn; lia)
                ltac:(cbn; lia) eq_refl) as (_ & _ & Ht & _ & Hb).
  split; [apply Hb; cbn; intuition discriminate | exact Ht].
Defined.

(** [buy_ticket] of an active listing whose expiry has passed fails with
    [ListingExpired] once the accounts check out. *)
Theorem ix_buy_ticket_expired (now : Z) (ctx : Ix.BuyTicketAccounts) (l : Ix.Listing)
  (cfg : Ix.RoyaltyConfig) (s : State) (e : Z)
  (Hc : Ix.check_buy_accounts ctx l cfg s = Ok tt)
  (He : Ix.expires_at l = Some e) (Hle : e <= now) :
  Ix.buy_ticket now ctx l cfg s = Err (Custom ListingExpired).
Proof.
  unfold Ix.buy_ticket. rewrite Hc. cbn [bind]. rewrite He. unfold require.
  destruct (now <? e) eqn:E; [apply Z.ltb_lt in E; lia | reflexivity].
Qed.

Lemma ix_buy_ticket_expired_witness :
  Ix.buy_ticket 100 demo_ix_buy_ctx listing_expiring_100 scenario_b_config demo_state
    = Err (Custom ListingExpired).
Proof. apply (ix_buy_ticket_expired _ _ _ _ _ 100); [reflexivity | reflexivity | lia]. Defined.

(** ** Further properties: auctions *)

Lemma AuctionStatus_eqb_true (a b : StateMod.AuctionStatus) :
  StateMod.AuctionStatus_eqb a b = true -> a = b.
Proof. destruct a, b; cbn; congruence. Qed.

Lemma AuctionType_eqb_true (a b : StateMod.AuctionType) :
  StateMod.AuctionType_eqb a b = true -> a = b.
Proof. destruct a, b; cbn; congruence. Qed.

(** The bid the escrowing [place_bid] hands back to the previous bidder
    (lines 21-35 of [temp_auction_fix.rs]): the current bid when another
    bidder holds a positive one, nothing otherwise. *)
Definition outbid_refund (a : StateMod.Auction) (bidder : Pubkey) : Z :=
  match StateMod.highest_bidder a with
  | Some prev_bidder =>
      if negb (Nat.eqb prev_bidder bidder) && (0 <? StateMod.current_bid a)
      then StateMod.current_bid a else 0
  | None => 0
  end.

Lemma outbid_refund_nonneg (a : StateMod.Auction) (b : Pubkey) : 0 <= outbid_refund a b.
Proof.
  unfold outbid_refund. destruct (StateMod.highest_bidder a); [|lia].
  destruct (negb _ && _) eqn:C; [|lia].
  apply andb_true_iff in C as [_ C]. apply Z.ltb_lt in C. lia.
Qed.

Lemma net_paid_if_positive (k : Pubkey) (m : Movement) :
  0 <= mv_amount m -> net k (paid_if_positive m) = net k [m].
Proof.
  intros H. unfold paid_if_positive. destruct (0 <? mv_amount m) eqn:E; [reflexivity|].
  apply Z.ltb_ge in E. assert (mv_amount m = 0) as Z0 by lia.
  unfold net. cbn [fold_right]. rewrite Z0.
  destruct (Nat.eqb k (mv_to m)), (Nat.eqb k (mv_from m)); reflexivity.
Qed.

(** The refund step of the escrowing [place_bid]. *)
Lemma fix_refund_step (ctx : AuctionFix.PlaceBidAccounts) (a : StateMod.Auction)
  (s s1 : State) :
  match StateMod.highest_bidder a with
  | Some prev_bidder =>
      if negb (Nat.eqb prev_bidder (AuctionFix.pb_bidder ctx))
         && (0 <? StateMod.current_bid a)
      then direct_lamport_move (AuctionFix.pb_previous_bidder ctx) (AuctionFix.pb_auction ctx)
             (StateMod.current_bid a) s
      else Ok s
  | None => Ok s
  end = Ok s1 ->
  nets s s1 (paid_if_positive (mkMovement (AuctionFix.pb_auction ctx)
                                (AuctionFix.pb_previous_bidder ctx)
                                (outbid_refund a (AuctionFix.pb_bidder ctx)))) /\
  token_holder s1 = token_holder s.
Proof.
  unfold outbid_refund, paid_if_positive. cbn [mv_amount].
  destruct (StateMod.highest_bidder a) as [p|].
  - destruct (negb _ && _) eqn:C.
    + apply andb_true_iff in C as [_ C]. rewrite C.
      intros H. split; [apply nets_direct; exact H|].
      apply direct_lamport_move_ok in H as (_ & T & _). exact T.
    + intros H; injection H as <-. split; [apply nets_nil | reflexivity].
  - intros H; injection H as <-. split; [apply nets_nil | reflexivity].
Qed.



(** The escrowing [place_bid] of [temp_auction_fix.rs] accepts only a
    bid above the current one on an active English auction before its
    end.  It records the bid and the bidder, moves no unit, hands the
    previous bid back (when another bidder held a positive one) and then
    takes the new bid into the auction account; with three distinct
    accounts, the auction account gains the bid less the refund, the
    bidder pays the bid and the previous bidder gets the refund. *)
Theorem fix_place_bid_escrows (now : Z) (ctx : AuctionFix.PlaceBidAccounts) (bid : Z)
  (a : StateMod.Auction) (s : State) (a' : StateMod.Auction) (s' : State)
  (H : AuctionFix.place_bid now ctx bid a s = Ok (a', s')) :
  StateMod.a_status a = StateMod.AActive /\ now < StateMod.end_time a /\
  StateMod.auction_type a = StateMod.English /\ StateMod.current_bid a < bid /\
  a' = StateMod.mkAuction (StateMod.a_ticket_mint a) (StateMod.a_seller a)
         (StateMod.starting_bid a) bid (Some (AuctionFix.pb_bidder ctx))
         (StateMod.end_time a) StateMod.English StateMod.AActive /\
  token_holder s' = token_holder s /\
  log s' = log s ++ paid_if_positive (mkMovement (AuctionFix.pb_auction ctx)
                                        (AuctionFix.pb_previous_bidder ctx)
                                        (outbid_refund a (AuctionFix.pb_bidder ctx)))
                 ++ [mkMovement (AuctionFix.pb_bidder ctx) (AuctionFix.pb_auction ctx) bid] /\
  (NoDup [AuctionFix.pb_auction ctx; AuctionFix.pb_bidder ctx;
          AuctionFix.pb_previous_bidder ctx] ->
   lamports s' (AuctionFix.pb_auction ctx)
     = lamports s (AuctionFix.pb_auction ctx) + bid - outbid_refund a (AuctionFix.pb_bidder ctx) /\
   lamports s' (AuctionFix.pb_bidder ctx) = lamports s (AuctionFix.pb_bidder ctx) - bid /\
   lamports s' (AuctionFix.pb_previous_bidder ctx)
     = lamports s (AuctionFix.pb_previous_bidder ctx) + outbid_refund a (AuctionFix.pb_bidder ctx)).
Proof.
  revert H. unfold AuctionFix.place_bid, require.
  destruct (StateMod.AuctionStatus_eqb _ _) eqn:E1; [|discriminate]; cbn [bind].
  destruct (now <? StateMod.end_time a) eqn:E2; [|discriminate]; cbn [bind].
  destruct (StateMod.AuctionType_eqb _ _) eqn:E3; [|discriminate]; cbn [bind].
  destruct (StateMod.current_bid a <? bid) eqn:E4; [|discriminate]; cbn [bind].
  destruct (match StateMod.highest_bidder a with Some _ => _ | None => _ end)
    as [s1|] eqn:H1; [|discriminate]; cbn [bind].
  destruct (system_transfer _ _ _ s1) as [s2|] eqn:H2; [|discriminate].
  intros H; injection H as <- <-.
  apply AuctionStatus_eqb_true in E1. apply AuctionType_eqb_true in E3.
  apply Z.ltb_lt in E2, E4.
  apply fix_refund_step in H1 as [N1 T1].
  pose proof (nets_system_transfer _ _ _ _ _ H2) as N2.
  apply system_transfer_ok in H2 as (_ & T2 & _).
  destruct (nets_app _ _ _ _ _ N1 N2) as [L B].
  rewrite E1, E3. split; [reflexivity|]. split; [exact E2|]. split; [reflexivity|].
  split; [exact E4|]. split; [reflexivity|]. split; [congruence|]. split; [exact L|].
  intros Hd.
  set (p := AuctionFix.pb_auction ctx) in *.
  set (b := AuctionFix.pb_bidder ctx) in *.
  set (q := AuctionFix.pb_previous_bidder ctx) in *.
  assert (Hr := outbid_refund_nonneg a b).
  inversion Hd as [|? ? Hn1 Hd1]; subst. inversion Hd1 as [|? ? Hn2 _]; subst.
  cbn [In] in Hn1, Hn2.
  assert (Epb : Nat.eqb p b = false)
    by (apply Nat.eqb_neq; intros E; apply Hn1; left; symmetry; exact E).
  assert (Epq : Nat.eqb p q = false)
    by (apply Nat.eqb_neq; intros E; apply Hn1; right; left; symmetry; exact E).
  assert (Ebq : Nat.eqb b q = false)
    by (apply Nat.eqb_neq; intros E; apply Hn2; left; symmetry; exact E).
  assert (Ebp : Nat.eqb b p = false) by (rewrite Nat.eqb_sym; exact Epb).
  assert (Eqp : Nat.eqb q p = false) by (rewrite Nat.eqb_sym; exact Epq).
  assert (Eqb : Nat.eqb q b = false) by (rewrite Nat.eqb_sym; exact Ebq).
  rewrite !B, !net_app, !net_paid_if_positive by exact Hr.
  unfold net. cbn [fold_right mv_to mv_from mv_amount].
  rewrite !Nat.eqb_refl. rewrite ?Epb, ?Epq, ?Ebq, ?Ebp, ?Eqp, ?Eqb.
  repeat split; lia.
Qed.

Lemma fix_place_bid_escrows_witness :
  exists a' s',
    AuctionFix.place_bid 0 (AuctionFix.mkPlaceBidAccounts 9%nat 4%nat 3%nat) 200
      auction_c demo_state = Ok (a', s') /\
    lamports s' 9%nat = 1000000000 + 200 - 150.
Proof.
  do 2 eexists. split; [reflexivity|].
  pose proof (fix_place_bid_escrows 0 (AuctionFix.mkPlaceBidAccounts 9%nat 4%nat 3%nat) 200
                auction_c demo_state _ _ eq_refl) as (_ & _ & _ & _ & _ & _ & _ & Hl).
  destruct Hl as [Hl _].
  - repeat constructor; cbn; intuition discriminate.
  - exact Hl.
Defined.

(** Scenario E: a Dutch auction, no bid yet. *)
Definition auction_dutch : StateMod.Auction :=
  StateMod.mkAuction 10%nat 1%nat 100 100 None 1000 StateMod.Dutch StateMod.AActive.

(** On a Dutch auction the two [place_bid]s part ways: the escrowing one
    of [temp_auction_fix.rs] refuses every bid with [ListingNotActive],
    the one of [src/lib.rs] accepts a bid above the current one. *)
Theorem dutch_bid_paths_diverge (now : Z) (b : Pubkey) (ctx : AuctionFix.PlaceBidAccounts)
  (bid : Z) (a : StateMod.Auction) (s : State)
  (Hst : StateMod.a_status a = StateMod.AActive) (Ht : now < StateMod.end_time a)
  (Hty : StateMod.auction_type a = StateMod.Dutch) (Hb : StateMod.current_bid a < bid) :
  AuctionFix.place_bid now ctx bid a s = Err (Custom ListingNotActive) /\
  Lib.place_bid now b bid a s =
    Ok (StateMod.mkAuction (StateMod.a_ticket_mint a) (StateMod.a_seller a)
          (StateMod.starting_bid a) bid (Some b) (StateMod.end_time a)
          StateMod.Dutch StateMod.AActive, s).
Proof.
  apply Z.ltb_lt in Ht, Hb.
  unfold AuctionFix.place_bid, Lib.place_bid, require.
  rewrite Hst, Ht, Hty, Hb. split; reflexivity.
Qed.

Lemma dutch_bid_paths_diverge_witness :
  AuctionFix.place_bid 0 (AuctionFix.mkPlaceBidAccounts 9%nat 4%nat 3%nat) 200
    auction_dutch demo_state = Err (Custom ListingNotActive) /\
  exists a', Lib.place_bid 0 4%nat 200 auction_dutch demo_state = Ok (a', demo_state).
Proof.
  destruct (dutch_bid_paths_diverge 0 4%nat (AuctionFix.mkPlaceBidAccounts 9%nat 4%nat 3%nat)
              200 auction_dutch demo_state eq_refl ltac:(cbn; lia) eq_refl
              ltac:(cbn; lia)) as [H1 H2].
  split; [exact H1 | eexists; exact H2].
Defined.

(** Bidding and ending never overlap: at a time when [end_auction]
    succeeds on an auction, both [place_bid]s refuse every bid on it with
    [ListingNotActive]. *)
Theorem auction_bid_end_exclusive (now : Z) (ectx : AuctionFix.EndAuctionAccounts)
  (cfg : StateMod.RoyaltyConfig) (a : StateMod.Auction) (s : State)
  (r : StateMod.Auction * State) (b : Pubkey) (pctx : AuctionFix.PlaceBidAccounts)
  (bid : Z) (s1 : State)
  (H : AuctionFix.end_auction now ectx cfg a s = Ok r) :
  Lib.place_bid now b bid a s1 = Err (Custom ListingNotActive) /\
  AuctionFix.place_bid now pctx bid a s1 = Err (Custom ListingNotActive).
Proof.
  revert H. unfold AuctionFix.end_auction, require.
  destruct (StateMod.AuctionStatus_eqb _ _) eqn:E1; [|discriminate]; cbn [bind].
  destruct (StateMod.end_time a <=? now) eqn:E2; [|discriminate]; intros _.
  apply Z.leb_le in E2.
  assert (E3 : (now <? StateMod.end_time a) = false) by (apply Z.ltb_ge; exact E2).
  unfold Lib.place_bid, AuctionFix.place_bid, require.
  rewrite E1, E3. split; reflexivity.
Qed.

Lemma auction_bid_end_exclusive_witness :
  Lib.place_bid 1000 5%nat 2000 auction_won demo_state = Err (Custom ListingNotActive) /\
  AuctionFix.place_bid 1000 (AuctionFix.mkPlaceBidAccounts 9%nat 5%nat 4%nat) 2000
    auction_won demo_state = Err (Custom ListingNotActive).
Proof.
  eapply (auction_bid_end_exclusive 1000 demo_end_ctx lib_config_b auction_won demo_state).
  reflexivity.
Defined.

(** [end_auction] is final: it succeeds only on an active auction at or
    after its end time, keeps the winning bid and bidder, moves no unit,
    and leaves the auction [Ended] or [Cancelled], so that ending it again
    and every later bid fail with [ListingNotActive]. *)
Theorem fix_end_auction_terminal (now : Z) (ctx : AuctionFix.EndAuctionAccounts)
  (cfg : StateMod.RoyaltyConfig) (a : StateMod.Auction) (s : State)
  (a' : StateMod.Auction) (s' : State)
  (H : AuctionFix.end_auction now ctx cfg a s = Ok (a', s')) :
  StateMod.a_status a = StateMod.AActive /\ StateMod.end_time a <= now /\
  StateMod.a_status a' <> StateMod.AActive /\
  StateMod.current_bid a' = StateMod.current_bid a /\
  StateMod.highest_bidder a' = StateMod.highest_bidder a /\
  token_holder s' = token_holder s /\
  (forall now' ctx' cfg' s1,
     AuctionFix.end_auction now' ctx' cfg' a' s1 = Err (Custom ListingNotActive)) /\
  (forall now' b bid s1, Lib.place_bid now' b bid a' s1 = Err (Custom ListingNotActive)) /\
  (forall now' pctx bid s1,
     AuctionFix.place_bid now' pctx bid a' s1 = Err (Custom ListingNotActive)).
Proof.
  assert (Done : forall st, st <> StateMod.AActive ->
            StateMod.a_status (AuctionFix.with_status a st) <> StateMod.AActive /\
            StateMod.current_bid (AuctionFix.with_status a st) = StateMod.current_bid a /\
            StateMod.highest_bidder (AuctionFix.with_status a st) = StateMod.highest_bidder a /\
            (forall now' ctx' cfg' s1,
               AuctionFix.end_auction now' ctx' cfg' (AuctionFix.with_status a st) s1
               = Err (Custom ListingNotActive)) /\
            (forall now' b bid s1,
               Lib.place_bid now' b bid (AuctionFix.with_status a st) s1
               = Err (Custom ListingNotActive)) /\
            (forall now' pctx bid s1,
               AuctionFix.place_bid now' pctx bid (AuctionFix.with_status a st) s1
               = Err (Custom ListingNotActive))).
  { intros st Hst.
    assert (E : StateMod.AuctionStatus_eqb st StateMod.AActive = false)
      by (destruct st; [contradiction | reflexivity | reflexivity]).
    cbn [StateMod.a_status StateMod.current_bid StateMod.highest_bidder AuctionFix.with_status].
    split; [exact Hst|]. split; [reflexivity|]. split; [reflexivity|].
    unfold AuctionFix.end_auction, Lib.place_bid, AuctionFix.place_bid, require.
    cbn [StateMod.a_status AuctionFix.with_status]. rewrite E.
    split; [|split]; reflexivity. }
  revert H. unfold AuctionFix.end_auction, require.
  destruct (StateMod.AuctionStatus_eqb _ _) eqn:E1; [|discriminate]; cbn [bind].
  destruct (StateMod.end_time a <=? now) eqn:E2; [|discriminate]; cbn [bind].
  apply AuctionStatus_eqb_true in E1. apply Z.leb_le in E2.
  destruct (StateMod.highest_bidder a) as [w|].
  - destruct (compute_split _ _ _ _) as [sp|]; [|discriminate]; cbn [bind].
    destruct (direct_lamport_move _ _ _ s) as [s1|] eqn:H1; [|discriminate]; cbn [bind].
    destruct (if 0 <? artist_royalty sp then _ else _) as [s2|] eqn:H2; [|discriminate];
      cbn [bind].
    destruct (if 0 <? venue_royalty sp then _ else _) as [s3|] eqn:H3; [|discriminate].
    intros H; injection H as <- <-.
    apply direct_lamport_move_ok in H1 as (_ & T1 & _).
    assert (T2 : token_holder s2 = token_holder s1).
    { destruct (0 <? artist_royalty sp);
        [apply direct_lamport_move_ok in H2 as (_ & T & _); exact T
        | injection H2 as <-; reflexivity]. }
    assert (T3 : token_holder s3 = token_holder s2).
    { destruct (0 <? venue_royalty sp);
        [apply direct_lamport_move_ok in H3 as (_ & T & _); exact T
        | injection H3 as <-; reflexivity]. }
    destruct (Done StateMod.Ended ltac:(discriminate)) as (D1 & D2 & D3 & D4).
    split; [exact E1|]. split; [exact E2|]. split; [exact D1|]. split; [exact D2|].
    split; [exact D3|]. split; [congruence | exact D4].
  - intros H; injection H as <- <-.
    destruct (Done StateMod.ACancelled ltac:(discriminate)) as (D1 & D2 & D3 & D4).
    split; [exact E1|]. split; [exact E2|]. split; [exact D1|]. split; [exact D2|].
    split; [exact D3|]. split; [reflexivity | exact D4].
Qed.

Lemma fix_end_auction_terminal_witness :
  exists a' s',
    AuctionFix.end_auction 1000 demo_end_ctx lib_config_b auction_won demo_state
      = Ok (a', s') /\
    AuctionFix.end_auction 2000 demo_end_ctx lib_config_b a' s'
      = Err (Custom ListingNotActive).
Proof.
  do 2 eexists. split; [reflexivity|].
  pose proof (fix_end_auction_terminal 1000 demo_end_ctx lib_config_b auction_won demo_state
                _ _ eq_refl) as (_ & _ & _ & _ & _ & _ & He & _).
  apply He.
Defined.

(** ** Further properties: [buy_ticket] and [create_auction] of [src/lib.rs] *)

(** The [buy_ticket] of [src/lib.rs] succeeds only on an active listing
    and marks it [Sold], every other field as it was; it never transfers
    the ticket: every unit stays where it was.  A buyer that is none of
    the payees pays the price less the platform fee. *)
Theorem lib_buy_ticket_keeps_unit (ctx : Lib.BuyTicketAccounts) (l : StateMod.Listing)
  (cfg : StateMod.RoyaltyConfig) (s : State) (l' : StateMod.Listing) (s' : State)
  (Hp : 0 <= StateMod.price l) (Ha : 0 <= StateMod.artist_percentage cfg)
  (Hv : 0 <= StateMod.venue_percentage cfg) (Hf : 0 <= StateMod.platform_percentage cfg)
  (H : Lib.buy_ticket ctx l cfg s = Ok (l', s')) :
  StateMod.status l = StateMod.Active /\
  l' = StateMod.mkListing (StateMod.ticket_mint l) (StateMod.seller l) (StateMod.price l)
         (StateMod.original_price l) (StateMod.price_cap l) StateMod.Sold /\
  token_holder s' = token_holder s /\
  exists sp,
    compute_split (StateMod.price l) (StateMod.artist_percentage cfg)
      (StateMod.venue_percentage cfg) (StateMod.platform_percentage cfg) = Ok sp /\
    (~ In (Lib.bt_buyer ctx) [Lib.bt_seller ctx; Lib.bt_artist_wallet ctx;
                              Lib.bt_venue_wallet ctx] ->
     lamports s' (Lib.bt_buyer ctx)
       = lamports s (Lib.bt_buyer ctx) - (StateMod.price l - platform_fee sp)).
Proof.
  revert H. unfold Lib.buy_ticket.
  destruct (Lib.check_buy_accounts ctx l cfg) as [[]|]; [|discriminate]; cbn [bind].
  unfold require.
  destruct (StateMod.ListingStatus_eqb _ _) eqn:Es; [|discriminate]; cbn [bind].
  destruct (compute_split _ _ _ _) as [sp|] eqn:Hsp; [|discriminate]; cbn [bind].
  destruct (system_transfer _ _ _ s) as [s1|] eqn:H1; [|discriminate]; cbn [bind].
  destruct (if 0 <? artist_royalty sp then _ else _) as [s2|] eqn:H2; [|discriminate];
    cbn [bind].
  destruct (if 0 <? venue_royalty sp then _ else _) as [s3|] eqn:H3; [|discriminate].
  intros H; injection H as <- <-.
  destruct (compute_split_nonneg _ _ _ _ sp Hp Ha Hv Hf Hsp) as (Har & Hvr & _ & Hs).
  split; [destruct (StateMod.status l); [reflexivity | discriminate | discriminate]|].
  split; [reflexivity|].
  set (b := Lib.bt_buyer ctx).
  set (ms := [mkMovement b (Lib.bt_seller ctx) (seller_amount sp)]
             ++ paid_if_positive (mkMovement b (Lib.bt_artist_wallet ctx) (artist_royalty sp))
             ++ paid_if_positive (mkMovement b (Lib.bt_venue_wallet ctx) (venue_royalty sp))).
  assert (M : moves s s3 ms).
  { unfold ms. eapply moves_app; [apply moves_system_transfer; exact H1|].
    eapply moves_app;
      [eapply moves_if_positive; [intros ? ? E; apply moves_system_transfer; exact E | exact H2]|].
    eapply moves_if_positive; [intros ? ? E; apply moves_system_transfer; exact E | exact H3]. }
  assert (N : nets s s3 ms).
  { unfold ms. eapply nets_app; [apply nets_system_transfer; exact H1|].
    eapply nets_app;
      [eapply nets_if_positive; [intros ? ? E; apply nets_system_transfer; exact E | exact H2]|].
    eapply nets_if_positive; [intros ? ? E; apply nets_system_transfer; exact E | exact H3]. }
  destruct M as (_ & T & _). destruct N as [_ B].
  split; [exact T|]. exists sp. split; [reflexivity|].
  intros Hnin. rewrite B, net_payer.
  - unfold ms. rewrite !sum_amounts_app, !sum_paid_if_positive by (cbn; assumption).
    cbn [sum_amounts fold_right mv_amount]. lia.
  - unfold ms. apply Forall_app; split; [|apply Forall_app; split].
    + constructor; [|constructor]. cbn [mv_from mv_to]. split; [reflexivity|].
      intros E. apply Hnin. left. exact E.
    + apply Forall_paid_if_positive. cbn [mv_from mv_to]. split; [reflexivity|].
      intros E. apply Hnin. right; left. exact E.
    + apply Forall_paid_if_positive. cbn [mv_from mv_to]. split; [reflexivity|].
      intros E. apply Hnin. right; right; left. exact E.
Qed.

Lemma lib_buy_ticket_keeps_unit_witness :
  exists l' s',
    Lib.buy_ticket demo_lib_buy_ctx active_listing_lib lib_config_b demo_state = Ok (l', s') /\
    token_holder s' 10%nat = 0%nat /\ lamports s' 7%nat = 1000000000 - (1000 - 10).
Proof.
  do 2 eexists. split; [reflexivity|].
  pose proof (lib_buy_ticket_keeps_unit demo_lib_buy_ctx active_listing_lib lib_config_b
                demo_state _ _ ltac:(cbn; lia) ltac:(cbn; lia) ltac:(cbn; lia)
                ltac:(cbn; lia) eq_refl) as (_ & _ & Ht & sp & Hsp & Hb).
  cbn in Hsp. injection Hsp as <-.
  split; [rewrite Ht; reflexivity|].
  apply Hb. cbn. intuition discriminate.
Defined.



(** ** Further properties: listing then cancelling, in [src/instructions/] *)



